(** * fboss port commands: a shallow embedding of [fboss/cli/commands/port.py]

    The Python module is a set of command objects that talk to two thrift
    services (the switch agent and the qsfp/transceiver service) and print
    text.  The embedding keeps that shape:

    - thrift structs are records, optional thrift fields are [option];
    - a Python [dict] that is only looked up is a [gmap]; a [dict] that is
      iterated is an insertion-ordered association list ([odict]);
    - every remote call, [print] and [time.sleep] is an [event] appended to
      a log, the services are arbitrary state machines, and a raised Python
      exception is the left injection of the result;
    - Python floats are modelled by exact numbers: rationals in
      [_convert_bps] (see there), reals in [_mw_to_dbm];
    - a string is a sequence of code points below 256. *)

From Stdlib Require Import ZArith QArith Reals Lia Lra List.
From stdpp Require Import gmap strings list pretty.

Local Open Scope Z_scope.

(** ** Exceptions *)

Inductive exn : Type :=
  | FbossBaseError
  | TApplicationException
  | KeyError
  | AssertionError
  | TypeError
  | ValueError.

Global Instance exn_eq_dec : EqDecision exn.
Proof. solve_decision. Defined.

(** ** Insertion-ordered dictionaries (Python [dict]) *)

Module odict.
Section odict.
Context {V : Type}.

Fixpoint get (k : Z) (d : list (Z * V)) : option V :=
  match d with
  | [] => None
  | (k', v) :: d' => if decide (k' = k) then Some v else get k d'
  end.

(** [d[k] = v]: an existing key keeps its position, a new one goes last. *)
Fixpoint set (k : Z) (v : V) (d : list (Z * V)) : list (Z * V) :=
  match d with
  | [] => [(k, v)]
  | (k', v') :: d' =>
      if decide (k' = k) then (k, v) :: d' else (k', v') :: set k v d'
  end.

Definition keys (d : list (Z * V)) : list Z := d.*1.
Definition values (d : list (Z * V)) : list V := d.*2.

(** [sorted(d.items())]: the keys of a dict are distinct, so the tuples
    are ordered by key alone. *)
Fixpoint insert_sorted (kv : Z * V) (d : list (Z * V)) : list (Z * V) :=
  match d with
  | [] => [kv]
  | kv' :: d' =>
      if decide (kv.1 ≤ kv'.1) then kv :: kv' :: d'
      else kv' :: insert_sorted kv d'
  end.

Definition sorted_items (d : list (Z * V)) : list (Z * V) :=
  foldr insert_sorted [] d.
End odict.
End odict.

(** [sorted(xs, key=...)] for a key whose order is given by [le]; stable. *)
Fixpoint insert_by {A} (le : A → A → bool) (x : A) (l : list A) : list A :=
  match l with
  | [] => [x]
  | y :: l' => if le x y then x :: y :: l' else y :: insert_by le x l'
  end.

Definition sorted_by {A} (le : A → A → bool) (l : list A) : list A :=
  foldr (insert_by le) [] l.

(** ** Text helpers *)

Fixpoint pad (n : nat) (c : Ascii.ascii) : string :=
  match n with
  | O => ""
  | S n' => String c (pad n' c)
  end.

(** [s.ljust(w, c)] and the format specs [{:c<w}], [{:<w}]. *)
Definition ljust (w : nat) (c : Ascii.ascii) (s : string) : string :=
  s +:+ pad (w - String.length s) c.

(** The format spec [{:>w}]. *)
Definition rjust (w : nat) (c : Ascii.ascii) (s : string) : string :=
  pad (w - String.length s) c +:+ s.

Definition dot : Ascii.ascii := Ascii.ascii_of_nat 46.
Definition space : Ascii.ascii := Ascii.ascii_of_nat 32.

Definition newline : string := String (Ascii.ascii_of_nat 10) "".

(** White space as [str.strip] sees it.  A character of a modelled string
    is a code point below 256; among those, [str.isspace] holds for 9-13,
    28-32, 133 (U+0085) and 160 (U+00A0). *)
Definition is_space (c : Ascii.ascii) : bool :=
  let n := Ascii.nat_of_ascii c in
  ((9 <=? n) && (n <=? 13) || (28 <=? n) && (n <=? 32)
   || (n =? 133) || (n =? 160))%nat.

Fixpoint lstrip (s : string) : string :=
  match s with
  | String c s' => if is_space c then lstrip s' else s
  | EmptyString => s
  end.

Fixpoint rstrip (s : string) : string :=
  match s with
  | String c s' =>
      match rstrip s' with
      | EmptyString => if is_space c then "" else String c ""
      | r => String c r
      end
  | EmptyString => s
  end.

Definition strip (s : string) : string := rstrip (lstrip s).

(** ** Thrift data model *)

(** [TransceiverIdx]: [channels] is an optional list, [None] when an older
    controller does not send it. *)
Record TransceiverIdx : Type := {
  channelId : Z;
  transceiverId : Z;
  channels : option (list Z);
}.

Record PortStatus : Type := {
  enabled : bool;
  up : bool;
  transceiverIdx : option TransceiverIdx;
}.

(** [PortInfoThrift]; [speedMbps] is [None] when the field is unset,
    [fecEnabled] is [None] when the attribute does not exist. *)
Record PortInfo : Type := {
  portId : Z;
  name : string;
  adminState : Z;
  operState : Z;
  speedMbps : option Z;
  vlans : option (list Z);
  fecEnabled : option bool;
  description : option string;
}.

(** The telemetry blocks of a [TransceiverInfo] hold floats that the module
    only passes to [str.format]; their types and the text of the leaf
    printers ([_print_vendor_details], [_print_cable_details],
    [_print_settings_details], [_print_thresholds], [_print_sensor_flags],
    [_print_port_channel], the temperature line) are parameters.
    [sensor_flags_lines] stands for [_print_sensor_flags] together with
    the test [info.sensor.temp.flags and info.sensor.vcc.flags] around
    its call. *)
Record TelemetryModel : Type := {
  Vendor : Type;
  Cable : Type;
  Settings : Type;
  Sensor : Type;
  Thresholds : Type;
  ChannelSensors : Type;
  vendor_lines : Vendor → list string;
  cable_lines : Cable → list string;
  settings_lines : Settings → list string;
  sensor_line : Sensor → string;
  thresholds_lines : Thresholds → list string;
  sensor_flags_lines : Sensor → list string;
  port_channel_lines : bool → ChannelSensors → list string;
}.

Record Channel (T : TelemetryModel) : Type := {
  channel : Z;
  sensors : ChannelSensors T;
}.
Arguments channel {T} _.
Arguments sensors {T} _.

Record TransceiverInfo (T : TelemetryModel) : Type := {
  present : bool;
  port : Z;
  vendor : option (Vendor T);
  cable : option (Cable T);
  settings : option (Settings T);
  sensor : option (Sensor T);
  thresholds : option (Thresholds T);
  info_channels : option (list (Channel T));
}.
Arguments present {T} _.
Arguments port {T} _.
Arguments vendor {T} _.
Arguments cable {T} _.
Arguments settings {T} _.
Arguments sensor {T} _.
Arguments thresholds {T} _.
Arguments info_channels {T} _.

(** ** Events, services and the command monad *)

Inductive call : Type :=
  | GetAllPortInfo
  | GetPortInfo (port : Z)
  | GetPortStatus (ports : list Z)
  | SetPortState (port : Z) (enable : bool)
  | GetTransceiverInfo (tids : list Z).

Inductive event : Type :=
  | Print (text : string)
  | Sleep (seconds : Z)
  | Rpc (c : call).

(** The switch agent as the commands see it: each call answers or raises,
    and may change the agent. *)
Record AgentClient (S : Type) : Type := {
  getAllPortInfo : S → (exn + list (Z * PortInfo)) * S;
  getPortInfo : Z → S → (exn + PortInfo) * S;
  getPortStatus : list Z → S → (exn + list (Z * PortStatus)) * S;
  setPortState : Z → bool → S → (exn + unit) * S;
}.
Arguments getAllPortInfo {S} _.
Arguments getPortInfo {S} _.
Arguments getPortStatus {S} _.
Arguments setPortState {S} _.

Record QsfpClient (T : TelemetryModel) (S : Type) : Type := {
  getTransceiverInfo : list Z → S → (exn + gmap Z (TransceiverInfo T)) * S;
}.
Arguments getTransceiverInfo {T S} _.

Record world (S : Type) : Type := World {
  services : S;
  log : list event;
}.
Arguments World {S} _ _.
Arguments services {S} _.
Arguments log {S} _.

Definition M (S A : Type) : Type := world S → (exn + A) * world S.

Global Instance M_ret {S} : MRet (M S) := λ A (a : A) w, (inr a, w).

Global Instance M_bind {S} : MBind (M S) := λ A B (f : A → M S B) (m : M S A) w,
  match m w with
  | (inl e, w') => (inl e, w')
  | (inr a, w') => f a w'
  end.

Global Instance M_fmap {S} : FMap (M S) := λ A B (f : A → B) (m : M S A),
  a ← m; mret (f a).

Definition raise {S A} (e : exn) : M S A := λ w, (inl e, w).

Definition lift {S A} (r : exn + A) : M S A := λ w, (r, w).

Definition emit {S} (ev : event) : M S unit :=
  λ w, (inr tt, World (services w) (log w ++ [ev])).

Definition print {S} (text : string) : M S unit := emit (Print text).

Definition sleep {S} (seconds : Z) : M S unit := emit (Sleep seconds).

(** A remote call: logged, then answered by the service. *)
Definition rpc {S A} (c : call) (handler : S → (exn + A) * S) : M S A :=
  λ w, let '(r, s') := handler (services w) in
       (r, World s' (log w ++ [Rpc c])).

(** [for x in xs: body x] *)
Fixpoint for_each {S A} (xs : list A) (body : A → M S unit) : M S unit :=
  match xs with
  | [] => mret tt
  | x :: xs' => body x ;; for_each xs' body
  end.

Definition print_lines {S} (lines : list string) : M S unit :=
  for_each lines print.

(** [try: m  except Exception as e: handler e] *)
Definition try_catch {S A} (m : M S A) (handler : exn → M S A) : M S A :=
  λ w, match m w with
       | (inl e, w') => handler e w'
       | r => r
       end.

(** The events a command appends to the log of [w]. *)
Definition trace_of {S A} (m : M S A) (w : world S) : list event :=
  drop (length (log w)) (log (m w).2).

(** ** [fboss.cli.utils.utils] *)

Record StatusStrs : Type := {
  admin_status : string;
  link_status : string;
  present_str : string;
}.

(** Modelled from the spec: [utils.get_status_strs] lives in
    [fboss/cli/utils/utils.py], which is not part of the sources.  The
    spec gives the labels: admin state "Enabled"/"Disabled", link state
    "Up"/"Down", presence "Present"/"Absent"/"-" for a three-valued
    presence.  The colour hint and the speed label are left out; nothing
    in this module reads them. *)
Definition get_status_strs (status : PortStatus) (is_present : option bool)
    : StatusStrs :=
  {| admin_status := if enabled status then "Enabled" else "Disabled";
     link_status := if up status then "Up" else "Down";
     present_str := match is_present with
                    | Some true => "Present"
                    | Some false => "Absent"
                    | None => "-"
                    end |}.

(** ** [PortDetailsCmd] *)

Definition Qltb (x y : Q) : bool := negb (Qle_bool y x).

(** The table of the loop, as the source has it: the first row is
    [(1, '')]. *)
Definition bps_units : list (Z * string) :=
  [(1, ""); (3, "K"); (6, "M"); (9, "G")].

(** The [for factor, unit in ...] loop of [_convert_bps]; [None] when the
    loop ends without [break].

    [value /= 1000] and [bps / 10 ** factor] are float divisions.  They are
    modelled by exact rational division.  For an integer [bps] the tests
    [value < 1000] come out the same: a quotient of [bps] by a power of
    1000 that is below 1000 is below it by at least [1e-9], far more than
    the rounding error of three divisions, and 1000 itself is a float. *)
Fixpoint convert_bps_loop (bps : Z) (value : Q) (units : list (Z * string))
    : option (Q * string) :=
  match units with
  | [] => None
  | (factor, unit) :: units' =>
      if Qltb value 1000 then
        Some ((inject_Z bps / inject_Z (10 ^ factor))%Q, unit +:+ "bps")
      else convert_bps_loop bps (value / 1000)%Q units'
  end.

(** The largest argument [_print_port_details] can pass: [speedMbps] is a
    thrift [i64], and the argument is [speedMbps * (10 ** 6)]. *)
Definition max_bps : Z := (2 ^ 63 - 1) * 10 ^ 6.

(** [_convert_bps]: the [assert] fails when no unit was found ([suffix]
    is never empty).  The properties below are stated for arguments
    between 0 and [max_bps], where every division has a float result. *)
Definition _convert_bps (bps : Z) : exn + (Q * string) :=
  match convert_bps_loop bps (inject_Z bps) bps_units with
  | Some r => inr r
  | None => inl AssertionError
  end.

(** The format spec [{:.0f}]: round to the nearest integer, ties to even.
    (For the values [_print_port_details] formats, quotients of a
    multiple of [10 ** 6] by a power of ten up to [10 ** 9], the float is
    either an integer, a half-integer or at least [1e-3] away from one,
    so rounding the exact quotient gives the same digits.) *)
Definition format_0f (x : Q) : string :=
  let n := Qnum x in
  let d := Z.pos (Qden x) in
  let q := n `div` d in
  let r := n `mod` d in
  pretty (if decide (2 * r < d) then q
          else if decide (d < 2 * r) then q + 1
          else if Z.even q then q else q + 1).

Definition join (sep : string) (l : list string) : string :=
  String.concat sep l.

(** The values [_print_port_details] computes from [port_info], as the
    text of its three [print] calls.  [None * (10 ** 6)] is a
    [TypeError]. *)
Definition port_details_text (port_info : PortInfo) : exn + list string :=
  let admin_status :=
    if decide (adminState port_info = 0) then "DISABLED" else "ENABLED" in
  let oper_status :=
    if decide (operState port_info = 0) then "DOWN" else "UP" in
  match speedMbps port_info with
  | None => inl TypeError
  | Some mbps =>
      match _convert_bps (mbps * 10 ^ 6) with
      | inl e => inl e
      | inr (speed, suffix) =>
          let vlans := join " " (pretty <$> default [] (vlans port_info)) in
          let fec_status :=
            match fecEnabled port_info with
            | None => "N/A"
            | Some true => "ENABLED"
            | Some false => "DISABLED"
            end in
          let fmt := λ l : string * string, ljust 50 dot l.1 +:+ l.2 in
          let lines :=
            [("Name", strip (name port_info));
             ("Port ID", pretty (portId port_info));
             ("Admin State", admin_status);
             ("Link State", oper_status);
             ("Speed", format_0f speed +:+ " " +:+ suffix);
             ("VLANs", vlans);
             ("Forward Error Correction", fec_status)] in
          inr [""; join newline (fmt <$> lines);
               ljust 20 dot "Description" +:+ default "" (description port_info)]
      end
  end.

Section agent.
Context {S : Type} (client : AgentClient S).

(** [_print_port_details]; [port_info] is [None] when the caller leaves
    it out.  Everything that can raise is evaluated before the first
    [print]; [port_details_text] is that part and gives the text of the
    three [print] calls. *)
Definition _print_port_details (port_id : Z) (port_info : option PortInfo)
    : M S unit :=
  port_info ← match port_info with
              | Some info => mret info
              | None => rpc (GetPortInfo port_id) (getPortInfo client port_id)
              end;
  text ← lift (port_details_text port_info);
  print_lines text.

(** [utils.port_sort_fn] is not part of the sources; [port_sort_le a b]
    stands for [port_sort_fn(a) <= port_sort_fn(b)]. *)
Context (port_sort_le : PortInfo → PortInfo → bool).

(** [PortDetailsCmd.run].  In both handlers the expression
    [str + exception] raises [TypeError] before the intended exception
    is built. *)
Definition PortDetailsCmd_run (ports : list Z) : M S unit :=
  resp ← try_catch
           (match ports with
            | [] => Some <$> rpc GetAllPortInfo (getAllPortInfo client)
            | _ => mret None
            end)
           (λ _, raise TypeError);
  match ports, resp with
  | _ :: _, _ => for_each ports (λ port, _print_port_details port None)
  | [], Some ((_ :: _) as resp) =>
      let all_ports := sorted_by port_sort_le (odict.values resp) in
      let all_ports :=
        filter (λ port, operState port = 1) all_ports in
      for_each all_ports (λ port, _print_port_details (portId port) (Some port))
  | [], _ => print "No Ports Found"
  end.

(** ** [PortFlapCmd] *)

Definition flap_disable (kv : Z * PortStatus) : M S unit :=
  let '(port, status) := kv in
  if enabled status then
    print ("Disabling port " +:+ pretty port);;
    rpc (SetPortState port false) (setPortState client port false)
  else
    print ("Port " +:+ pretty port +:+ " is disabled by configuration, cannot flap").

Definition flap_enable (kv : Z * PortStatus) : M S unit :=
  let '(port, status) := kv in
  if enabled status then
    print ("Enabling port " +:+ pretty port);;
    rpc (SetPortState port true) (setPortState client port true)
  else mret tt.

Definition flap_ports (ports : list Z) : M S unit :=
  resp ← rpc (GetPortStatus ports) (getPortStatus client ports);
  for_each resp flap_disable;;
  sleep 1;;
  for_each resp flap_enable.

Definition PortFlapCmd_run (ports : list Z) : M S unit :=
  try_catch
    (match ports with
     | [] => print "Hmm, how did we get here?"
     | _ => flap_ports ports
     end)
    (λ e, if decide (e = FbossBaseError) then raise TypeError else raise e).

(** ** [PortSetStatusCmd] *)

Definition set_status (ports : list Z) (status : bool) : M S unit :=
  for_each ports (λ port,
    let status_str := if status then "Enabling" else "Disabling" in
    print (status_str +:+ " port " +:+ pretty port);;
    rpc (SetPortState port status) (setPortState client port status)).

End agent.

(** ** [PortStatusDetailCmd] *)

(** The fields of the command object.  [_info_resp] is [None] in Python
    until [get_detail_status] assigns it and is not read before; here it
    starts empty. *)
Record DetailCmd (T : TelemetryModel) : Type := {
  _ports : list Z;
  _port_speeds : gmap Z (option Z);
  _info_resp : gmap Z (TransceiverInfo T);
  _status_resp : list (Z * PortStatus);
  _t_to_p : gmap Z (list (Z * Z));
  _transceiver : list Z;
  _verbose : bool;
}.
Arguments _ports {T} _.
Arguments _port_speeds {T} _.
Arguments _info_resp {T} _.
Arguments _status_resp {T} _.
Arguments _t_to_p {T} _.
Arguments _transceiver {T} _.
Arguments _verbose {T} _.

(** Python truthiness of an optional list: [None] and [[]] are false. *)
Definition list_truthy {A} (l : option (list A)) : bool :=
  match l with
  | Some (_ :: _) => true
  | _ => false
  end.

(** [range(a, b)] iterated. *)
Definition range (a b : Z) : list Z := seqZ a (b - a).

(** [self._t_to_p[tid]] on a [defaultdict(dict)]. *)
Definition t_to_p_get (m : gmap Z (list (Z * Z))) (tid : Z) : list (Z * Z) :=
  default [] (m !! tid).

(** [for ch in channels: self._t_to_p[tid][ch] = port] *)
Definition assign_channels (tid port : Z) (chans : list Z)
    (m : gmap Z (list (Z * Z))) : gmap Z (list (Z * Z)) :=
  foldl (λ m ch, <[tid := odict.set ch port (t_to_p_get m tid)]> m) m chans.

Section detail.
Context {T : TelemetryModel}.

Definition with_channel_detail (self : DetailCmd T)
    (t_to_p : gmap Z (list (Z * Z))) (transceiver : list Z) : DetailCmd T :=
  {| _ports := _ports self; _port_speeds := _port_speeds self;
     _info_resp := _info_resp self; _status_resp := _status_resp self;
     _t_to_p := t_to_p; _transceiver := transceiver;
     _verbose := _verbose self |}.

Definition with_info_resp (self : DetailCmd T)
    (info_resp : gmap Z (TransceiverInfo T)) : DetailCmd T :=
  {| _ports := _ports self; _port_speeds := _port_speeds self;
     _info_resp := info_resp; _status_resp := _status_resp self;
     _t_to_p := _t_to_p self; _transceiver := _transceiver self;
     _verbose := _verbose self |}.

(** [_get_port_channels]: [self._port_speeds[port]] raises [KeyError]
    for an unknown port; [speed == 20000] is false for [None]. *)
Definition _get_port_channels (self : DetailCmd T)
    (port : Z) (xcvr_info : TransceiverIdx) : exn + list Z :=
  let start_channel := channelId xcvr_info in
  match _port_speeds self !! port with
  | None => inl KeyError
  | Some speed =>
      inr (if decide (speed = Some 20000) then
             range start_channel (start_channel + 2)
           else if decide (speed = Some 40000) then
             range start_channel (start_channel + 4)
           else [start_channel])
  end.

(** [_get_channel_detail]; the caller has checked that
    [status.transceiverIdx] is set and passes it as [idx]. *)
Definition _get_channel_detail (self : DetailCmd T)
    (port : Z) (idx : TransceiverIdx) : exn + DetailCmd T :=
  let chans :=
    if list_truthy (channels idx) then inr (default [] (channels idx))
    else _get_port_channels self port idx in
  match chans with
  | inl e => inl e
  | inr chans =>
      let tid := transceiverId idx in
      inr (with_channel_detail self
             (assign_channels tid port chans (_t_to_p self))
             (if decide (tid ∈ _transceiver self) then _transceiver self
              else _transceiver self ++ [tid]))
  end.

(** [transceiver_ttypes.TransceiverInfo()] with [port] and [present]
    assigned. *)
Definition dummy_info (port : Z) : TransceiverInfo T :=
  {| present := false; port := port; vendor := None; cable := None;
     settings := None; sensor := None; thresholds := None;
     info_channels := None |}.

(** [_get_dummy_status]: the new record is stored under [port]. *)
Definition _get_dummy_status (self : DetailCmd T) : DetailCmd T :=
  with_info_resp self
    (foldl (λ info_resp (kv : Z * PortStatus),
              match transceiverIdx kv.2 with
              | Some idx =>
                  let tid := transceiverId idx in
                  if decide (tid ∈ dom info_resp) then info_resp
                  else <[kv.1 := dummy_info kv.1]> info_resp
              | None => info_resp
              end)
           (_info_resp self)
           (odict.sorted_items (_status_resp self))).

Definition port_line (port : Z) (attrs : StatusStrs) : string :=
  "Port: " +:+ rjust 2 space (pretty port) +:+
  "  Status: " +:+ ljust 8 space (admin_status attrs) +:+
  "  Link: " +:+ ljust 4 space (link_status attrs) +:+
  "  Transceiver: " +:+ present_str attrs.

Definition channel_port_line (ch port : Z) (attrs : StatusStrs) : string :=
  "  Channel: " +:+ pretty ch +:+
  "  Port: " +:+ rjust 2 space (pretty port) +:+
  "  Status: " +:+ ljust 8 space (admin_status attrs) +:+
  "  Link: " +:+ ljust 4 space (link_status attrs).

Context {S : Type}.

(** [self._status_resp[port]] *)
Definition status_of (self : DetailCmd T) (port : Z) : M S PortStatus :=
  match odict.get port (_status_resp self) with
  | Some status => mret status
  | None => raise KeyError
  end.

Definition _print_transceiver_ports (self : DetailCmd T)
    (ch_to_port : list (Z * Z)) (info : TransceiverInfo T) : M S unit :=
  for_each (odict.values ch_to_port) (λ port,
    status ← status_of self port;
    let attrs := get_status_strs status (Some (present info)) in
    print (port_line port attrs)).

Definition when (b : bool) (m : M S unit) : M S unit :=
  if b then m else mret tt.

(** The body of [for channel in info.channels]; [if port:] is false for
    a missing channel and for port 0. *)
Definition print_channel (self : DetailCmd T) (ch_to_port : list (Z * Z))
    (ch : Channel T) : M S unit :=
  match odict.get (channel ch) ch_to_port with
  | Some port =>
      if decide (port = 0) then print ("  Channel: " +:+ pretty (channel ch))
      else
        status ← status_of self port;
        let attrs := get_status_strs status None in
        print (channel_port_line (channel ch) port attrs)
  | None => print ("  Channel: " +:+ pretty (channel ch))
  end;;
  print_lines (port_channel_lines T (_verbose self) (sensors ch)).

(** [_print_transceiver_details]: [self._info_resp[tid]] raises
    [KeyError] for a transceiver without a record; iterating
    [info.channels] when it is [None] raises [TypeError].  (Reading
    [self._t_to_p[tid]] adds an empty dict for a new [tid]; no later read
    tells that from a missing entry, so the map is not threaded.) *)
Definition _print_transceiver_details (self : DetailCmd T) (tid : Z)
    : M S unit :=
  match _info_resp self !! tid with
  | None => raise KeyError
  | Some info =>
      let ch_to_port := t_to_p_get (_t_to_p self) tid in
      if negb (present info) then _print_transceiver_ports self ch_to_port info
      else
        print ("Transceiver:  " +:+ rjust 2 space (pretty (port info)));;
        print_lines (from_option (vendor_lines T) [] (vendor info));;
        print_lines (from_option (cable_lines T) [] (cable info));;
        print_lines (from_option (settings_lines T) [] (settings info));;
        when (bool_decide (is_Some (sensor info))
              || (bool_decide (is_Some (thresholds info)) && _verbose self)
              || list_truthy (info_channels info))
          (print "Monitoring Information:");;
        print_lines (from_option (λ s, [sensor_line T s]) [] (sensor info));;
        when (_verbose self)
          (print_lines (from_option (thresholds_lines T) [] (thresholds info)));;
        when (_verbose self)
          (print_lines (from_option (sensor_flags_lines T) [] (sensor info)));;
        match info_channels info with
        | None => raise TypeError
        | Some chs => for_each chs (print_channel self ch_to_port)
        end;;
        when (negb (list_truthy (info_channels info)))
          (_print_transceiver_ports self ch_to_port info)
  end.

(** The loop of [_print_port_detail] with [transceiver_printed] as an
    accumulator.  For a port without a transceiver index the lookup
    [self._info_resp[status.transceiverIdx]] is [self._info_resp[None]],
    a [KeyError]. *)
Fixpoint print_port_detail_loop (self : DetailCmd T)
    (items : list (Z * PortStatus)) (transceiver_printed : list Z)
    : M S unit :=
  match items with
  | [] => mret tt
  | (port, status) :: items' =>
      match transceiverIdx status with
      | Some idx =>
          let tid := transceiverId idx in
          when (bool_decide (tid ∉ transceiver_printed))
            (_print_transceiver_details self tid);;
          print_port_detail_loop self items' (transceiver_printed ++ [tid])
      | None =>
          status_of self port;;
          raise KeyError
      end
  end.

Definition _print_port_detail (self : DetailCmd T) : M S unit :=
  print_port_detail_loop self (odict.sorted_items (_status_resp self)) [].

(** The first loop of [get_detail_status]. *)
Fixpoint collect_channel_detail (self : DetailCmd T)
    (items : list (Z * PortStatus)) : exn + DetailCmd T :=
  match items with
  | [] => inr self
  | (port, status) :: items' =>
      match transceiverIdx status with
      | Some idx =>
          match _get_channel_detail self port idx with
          | inl e => inl e
          | inr self' => collect_channel_detail self' items'
          end
      | None => collect_channel_detail self items'
      end
  end.

Context (qsfp_client : QsfpClient T S).

(** [get_detail_status]; the result is the command object as the method
    leaves it. *)
Definition get_detail_status (self : DetailCmd T) : M S (DetailCmd T) :=
  self ← lift (collect_channel_detail self
                 (odict.sorted_items (_status_resp self)));
  match _transceiver self with
  | [] => mret self
  | _ =>
      resp ← try_catch
               (Some <$> rpc (GetTransceiverInfo (_transceiver self))
                           (getTransceiverInfo qsfp_client (_transceiver self)))
               (λ e, if decide (e = TApplicationException) then mret None
                     else raise e);
      match resp with
      | None => mret self
      | Some info_resp =>
          let self := _get_dummy_status (with_info_resp self info_resp) in
          _print_port_detail self;;
          mret self
      end
  end.

Context (client : AgentClient S).

(** [_get_port_speeds] *)
Definition _get_port_speeds : M S (gmap Z (option Z)) :=
  all_info ← rpc GetAllPortInfo (getAllPortInfo client);
  mret (foldl (λ (d : gmap Z (option Z)) (kv : Z * PortInfo),
                 <[kv.1 := speedMbps kv.2]> d) ∅ all_info).

(** [PortStatusDetailCmd.__init__] *)
Definition PortStatusDetailCmd_init (ports : list Z) (verbose : bool)
    : M S (DetailCmd T) :=
  port_speeds ← _get_port_speeds;
  status_resp ← rpc (GetPortStatus ports) (getPortStatus client ports);
  mret {| _ports := ports; _port_speeds := port_speeds;
          _info_resp := ∅; _status_resp := status_resp;
          _t_to_p := ∅; _transceiver := []; _verbose := verbose |}.

(** [PortStatusCmd.run] when [detail] or [verbose] is set:
    [PortStatusDetailCmd(...).get_detail_status()]. *)
Definition PortStatusCmd_run_detail (ports : list Z) (verbose : bool)
    : M S (DetailCmd T) :=
  cmd ← PortStatusDetailCmd_init ports verbose;
  get_detail_status cmd.

End detail.

(** ** [_mw_to_dbm] *)

(** [math.log10] on the reals: a [ValueError] outside the domain. *)
Definition math_log10 (x : R) : exn + R :=
  if Rlt_dec 0 x then inr (ln x / ln 10)%R else inl ValueError.

Definition _mw_to_dbm (mw : R) : exn + R :=
  if Req_dec_T mw 0 then inr 0%R
  else match math_log10 mw with
       | inl e => inl e
       | inr l => inr (10 * l)%R
       end.

(** ** A mock switch agent and qsfp service

    The mock keeps a table of port statuses and one of port infos;
    [setPortState] updates the status table, and the telemetry answer is
    fixed in advance. *)
Module Mock.

Definition NoTelemetry : TelemetryModel :=
  {| Vendor := Empty_set; Cable := Empty_set; Settings := Empty_set;
     Sensor := Empty_set; Thresholds := Empty_set;
     ChannelSensors := Empty_set;
     vendor_lines := λ _, []; cable_lines := λ _, [];
     settings_lines := λ _, []; sensor_line := λ _, "";
     thresholds_lines := λ _, []; sensor_flags_lines := λ _, [];
     port_channel_lines := λ _ _, [] |}.

Record state : Type := {
  statuses : list (Z * PortStatus);
  infos : list (Z * PortInfo);
  telemetry : exn + gmap Z (TransceiverInfo NoTelemetry);
}.

Definition set_enabled (b : bool) (st : PortStatus) : PortStatus :=
  {| enabled := b; up := up st; transceiverIdx := transceiverIdx st |}.

Definition requested {V} (ports : list Z) (d : list (Z * V)) : list (Z * V) :=
  match ports with
  | [] => d
  | _ => omap (λ p, (p,.) <$> odict.get p d) ports
  end.

Definition agent : AgentClient state :=
  {| getAllPortInfo := λ s, (inr (infos s), s);
     getPortInfo := λ p s,
       (match odict.get p (infos s) with
        | Some i => inr i
        | None => inl FbossBaseError
        end, s);
     getPortStatus := λ ports s, (inr (requested ports (statuses s)), s);
     setPortState := λ p b s,
       (inr tt,
        match odict.get p (statuses s) with
        | Some st =>
            {| statuses := odict.set p (set_enabled b st) (statuses s);
               infos := infos s; telemetry := telemetry s |}
        | None => s
        end) |}.

Definition qsfp : QsfpClient NoTelemetry state :=
  {| getTransceiverInfo := λ _ s, (telemetry s, s) |}.

Definition status (en : bool) (idx : option TransceiverIdx) : PortStatus :=
  {| enabled := en; up := en; transceiverIdx := idx |}.

Definition info (p : Z) (oper : Z) (mbps : Z) : PortInfo :=
  {| portId := p; name := "eth1/" +:+ pretty p +:+ "/1"; adminState := 1;
     operState := oper; speedMbps := Some mbps; vlans := Some [p + 2000];
     fecEnabled := None; description := None |}.

Definition start (s : state) : world state := World s [].

(** Ports 2 and 1 enabled, port 3 disabled, in the agent's own order;
    the qsfp service is too old to answer. *)
Definition three_ports : state :=
  {| statuses := [(2, status true None); (1, status true None);
                  (3, status false None)];
     infos := [(2, info 2 1 40000); (1, info 1 0 10000);
               (3, info 3 1 100000)];
     telemetry := inl TApplicationException |}.

(** One 10G port, number [port], on channel 0 of transceiver 4. *)
Definition one_port (port : Z)
    (answer : exn + gmap Z (TransceiverInfo NoTelemetry)) : state :=
  {| statuses :=
       [(port, status true
                 (Some {| channelId := 0; transceiverId := 4;
                          channels := None |}))];
     infos := [(port, info port 1 10000)];
     telemetry := answer |}.

(** Port 5 on a transceiver whose cage is empty: no telemetry record. *)
Definition empty_cage : state := one_port 5 (inr ∅).

(** The same with a port that has the number of its transceiver. *)
Definition empty_cage_same_id : state := one_port 4 (inr ∅).

(** Port 5 with a qsfp service that does not know the call. *)
Definition old_qsfp : state := one_port 5 (inl TApplicationException).

Definition by_port_id (a b : PortInfo) : bool :=
  bool_decide (portId a ≤ portId b).

End Mock.

(** ** [PortStatsCmd] *)

(** [PortErrors], [PortCounters] and the fields of the answer of
    [getPortStats] that [show_stats] reads; [counter_errors] is the field
    [errors] of [PortCounters]. *)
Record PortErrors : Type := {
  errors : Z;
  discards : Z;
}.

Record PortCounters : Type := {
  bytes : Z;
  ucastPkts : Z;
  multicastPkts : Z;
  broadcastPkts : Z;
  counter_errors : PortErrors;
}.

Record PortStats : Type := {
  stats_name : string;
  input : PortCounters;
  output : PortCounters;
}.

(** [LinkNeighborThrift]; [systemName] is optional. *)
Record LinkNeighbor : Type := {
  localPort : Z;
  systemName : option string;
}.

(** The client of [_create_ctrl_client] as [show_stats] uses it. *)
Record CtrlClient (S : Type) : Type := {
  getAllPortStats : S → (exn + list (Z * PortStats)) * S;
  getPortStats : Z → S → (exn + PortStats) * S;
  getLldpNeighbors : S → (exn + list LinkNeighbor) * S;
}.
Arguments getAllPortStats {S} _.
Arguments getPortStats {S} _.
Arguments getLldpNeighbors {S} _.

(** A remote call of the stats command: answered by the service; the log
    of this command holds its output only. *)
Definition ask {S A} (handler : S → (exn + A) * S) : M S A :=
  λ w, let '(r, s') := handler (services w) in (r, World s' (log w)).

(** [str(x)] for an optional string: [None] prints as "None". *)
Definition str_of_option (x : option string) : string := default "None" x.

(** [_get_counter_string]; [None] asks for the column titles. *)
Definition _get_counter_string (counters : option PortCounters) : string :=
  let field_fmt := λ a b c d e f : string,
    rjust 15 space a +:+ " " +:+ rjust 15 space b +:+ " " +:+
    rjust 10 space c +:+ " " +:+ rjust 10 space d +:+ " " +:+
    rjust 10 space e +:+ " " +:+ rjust 10 space f in
  match counters with
  | None => field_fmt "bytes" "uPkts" "mcPkts" "bcPkts" "errs" "disc"
  | Some counters =>
      field_fmt (pretty (bytes counters)) (pretty (ucastPkts counters))
        (pretty (multicastPkts counters)) (pretty (broadcastPkts counters))
        (pretty (errors (counter_errors counters)))
        (pretty (discards (counter_errors counters)))
  end.

(** [_get_lldp_string] *)
Definition _get_lldp_string (port_id : Z)
    (n2ports : gmap Z (list LinkNeighbor)) (details : bool) : string :=
  match n2ports !! port_id with
  | Some ns =>
      if details then
        foldl (λ ret n, ret +:+ " " +:+ str_of_option (systemName n)) "" ns
      else ""
  | None => ""
  end.

(** [for neighbor in neighbors:
       n2ports.setdefault(neighbor.localPort, []).append(neighbor)] *)
Definition collect_neighbors (neighbors : list LinkNeighbor)
    : gmap Z (list LinkNeighbor) :=
  foldl (λ n2ports neighbor,
           <[localPort neighbor :=
               default [] (n2ports !! localPort neighbor) ++ [neighbor]]>
             n2ports)
        ∅ neighbors.

(** The format [{:<11} {:>3} {:>} {:<} {:>} {:<} {:<}] of [show_stats]. *)
Definition stats_field_fmt (a b c d e f g : string) : string :=
  ljust 11 space a +:+ " " +:+ rjust 3 space b +:+ " " +:+ c +:+ " " +:+
  d +:+ " " +:+ e +:+ " " +:+ f +:+ " " +:+ g.

Definition stats_header (details : bool) : string :=
  stats_field_fmt "Port Name" "+Id" "In" (_get_counter_string None)
    "Out" (_get_counter_string None) (if details then "Hosts" else "").

Definition stats_row (n2ports : gmap Z (list LinkNeighbor)) (details : bool)
    (kv : Z * PortStats) : string :=
  stats_field_fmt (stats_name kv.2) (pretty kv.1) "In"
    (_get_counter_string (Some (input kv.2)))
    "Out" (_get_counter_string (Some (output kv.2)))
    (_get_lldp_string kv.1 n2ports details).

Section stats.
Context {S : Type} (client : CtrlClient S).

(** [for port in ports: stats[port] = client.getPortStats(port)] *)
Fixpoint fetch_port_stats (ports : list Z) (stats : list (Z * PortStats))
    : M S (list (Z * PortStats)) :=
  match ports with
  | [] => mret stats
  | port :: ports' =>
      st ← ask (getPortStats client port);
      fetch_port_stats ports' (odict.set port st stats)
  end.

(** [show_stats] *)
Definition show_stats (details : bool) (ports : list Z) : M S unit :=
  stats ← match ports with
          | [] => ask (getAllPortStats client)
          | _ => fetch_port_stats ports []
          end;
  neighbors ← ask (getLldpNeighbors client);
  let n2ports := collect_neighbors neighbors in
  print (stats_header details);;
  for_each stats (λ kv, print (stats_row n2ports details kv)).

(** [PortStatsCmd.run]; as in the other commands the handler's
    [str + exception] raises [TypeError]. *)
Definition PortStatsCmd_run (details : bool) (ports : list Z) : M S unit :=
  try_catch (show_stats details ports)
    (λ e, if decide (e = FbossBaseError) then raise TypeError else raise e).

End stats.

(** [PortSetStatusCmd.run] *)
Definition PortSetStatusCmd_run {S} (client : AgentClient S)
    (ports : list Z) (status : bool) : M S unit :=
  try_catch (set_status client ports status)
    (λ e, if decide (e = FbossBaseError) then raise TypeError else raise e).

(** The elements of [l] in the order of their first occurrence, leaving
    out those already [seen]: what [if x not in xs: xs.append(x)] and
    [d[x] = ...] keep of a sequence. *)
Fixpoint unseen (seen : list Z) (l : list Z) : list Z :=
  match l with
  | [] => []
  | x :: l' =>
      if decide (x ∈ seen) then unseen seen l'
      else x :: unseen (seen ++ [x]) l'
  end.

(** The transceiver ids of the ports that have a transceiver index. *)
Definition transceiver_ids (items : list (Z * PortStatus)) : list Z :=
  omap (λ kv : Z * PortStatus, transceiverId <$> transceiverIdx kv.2) items.

(** A ctrl service for examples: per-port counters and a neighbour table
    that never change. *)
Module StatsMock.

Definition counters (n : Z) : PortCounters :=
  {| bytes := 1000 * n; ucastPkts := 10 * n; multicastPkts := n;
     broadcastPkts := 0; counter_errors := {| errors := 0; discards := n |} |}.

Definition stats (port : Z) : PortStats :=
  {| stats_name := "eth1/" +:+ pretty port +:+ "/1";
     input := counters port; output := counters (port + 1) |}.

Definition neighbors : list LinkNeighbor :=
  [{| localPort := 2; systemName := Some "rsw1" |};
   {| localPort := 1; systemName := Some "fsw7" |};
   {| localPort := 2; systemName := None |}].

Definition ctrl : CtrlClient unit :=
  {| getAllPortStats := λ s, (inr [(1, stats 1); (2, stats 2)], s);
     getPortStats := λ port s,
       (if decide (0 < port) then inr (stats port) else inl FbossBaseError, s);
     getLldpNeighbors := λ s, (inr neighbors, s) |}.

End StatsMock.

(** Command objects for examples. *)
Module Examples.

Definition idx (tid ch : Z) (chans : option (list Z)) : TransceiverIdx :=
  {| channelId := ch; transceiverId := tid; channels := chans |}.

(** A [PortStatusDetailCmd] as [__init__] leaves it. *)
Definition fresh (speeds : list (Z * option Z))
    (status_resp : list (Z * PortStatus)) : DetailCmd Mock.NoTelemetry :=
  {| _ports := status_resp.*1; _port_speeds := list_to_map speeds;
     _info_resp := ∅; _status_resp := status_resp;
     _t_to_p := ∅; _transceiver := []; _verbose := false |}.

(** Ports 1 and 2 share transceiver 7 (two 20G halves), port 3 is a 40G
    port on transceiver 8, port 9 has no transceiver. *)
Definition four_ports : list (Z * PortStatus) :=
  [(3, Mock.status true (Some (idx 8 0 None)));
   (1, Mock.status true (Some (idx 7 0 None)));
   (9, Mock.status false None);
   (2, Mock.status false (Some (idx 7 2 (Some [2; 3]))))].

Definition four_speeds : list (Z * option Z) :=
  [(1, Some 20000); (3, Some 40000); (9, None)].

(** A telemetry record of an empty cage. *)
Definition absent (port : Z) : TransceiverInfo Mock.NoTelemetry :=
  {| present := false; port := port; vendor := None; cable := None;
     settings := None; sensor := None; thresholds := None;
     info_channels := None |}.

(** The command object of a 40G port 4 on transceiver 4 after the
    telemetry answer said that the cage is empty. *)
Definition caged : DetailCmd Mock.NoTelemetry :=
  {| _ports := [4]; _port_speeds := {[ 4 := Some 40000 ]};
     _info_resp := {[ 4 := absent 4 ]};
     _status_resp := [(4, Mock.status true (Some (idx 4 0 None)))];
     _t_to_p := {[ 4 := [(0, 4); (1, 4); (2, 4); (3, 4)] ]};
     _transceiver := [4]; _verbose := false |}.

(** The mock agent, except that it refuses to disable port 1. *)
Definition stubborn : AgentClient Mock.state :=
  {| getAllPortInfo := getAllPortInfo Mock.agent;
     getPortInfo := getPortInfo Mock.agent;
     getPortStatus := getPortStatus Mock.agent;
     setPortState := λ port enable s,
       if decide (port = 1 ∧ enable = false) then (inl FbossBaseError, s)
       else setPortState Mock.agent port enable s |}.

End Examples.

(** ** Vocabulary for statements about logs *)

(** Every run of [m] appends only events that satisfy [P]. *)
Definition emits {S A} (P : event → Prop) (m : M S A) : Prop :=
  ∀ w, ∃ evs, log (m w).2 = log w ++ evs ∧ Forall P evs.

(** What the first loop of [flap_ports] may log: text and disable calls. *)
Definition disable_phase (ev : event) : Prop :=
  match ev with
  | Print _ => True
  | Rpc (SetPortState _ false) => True
  | _ => False
  end.

(** What the second loop of [flap_ports] may log: text and enable calls. *)
Definition enable_phase (ev : event) : Prop :=
  match ev with
  | Print _ => True
  | Rpc (SetPortState _ true) => True
  | _ => False
  end.

Definition skip_notice (port : Z) : string :=
  "Port " +:+ pretty port +:+ " is disabled by configuration, cannot flap".

(** The log of one round of each loop of [flap_ports], and of one round of
    [set_status], when the agent accepts the call. *)
Definition flap_disable_events (kv : Z * PortStatus) : list event :=
  if enabled kv.2 then
    [Print ("Disabling port " +:+ pretty kv.1); Rpc (SetPortState kv.1 false)]
  else [Print (skip_notice kv.1)].

Definition flap_enable_events (kv : Z * PortStatus) : list event :=
  if enabled kv.2 then
    [Print ("Enabling port " +:+ pretty kv.1); Rpc (SetPortState kv.1 true)]
  else [].

Definition set_status_events (status : bool) (port : Z) : list event :=
  [Print ((if status then "Enabling" else "Disabling") +:+ " port " +:+ pretty port);
   Rpc (SetPortState port status)].

(** An agent that accepts every [setPortState]. *)
Definition accepting {S} (client : AgentClient S) : Prop :=
  ∀ port enable s, (setPortState client port enable s).1 = inr tt.

(** The log of [_print_port_details] for a port that renders. *)
Definition port_details_events (port_info : PortInfo) : list event :=
  match port_details_text port_info with
  | inr text => Print <$> text
  | inl _ => []
  end.

(** * Properties *)

(** ** Ordered dictionaries *)

Section odict_facts.
Context {V : Type}.
Implicit Types (d : list (Z * V)) (k : Z) (v : V).

Lemma odict_get_set_eq d k v : odict.get k (odict.set k v d) = Some v.
Proof.
  induction d as [|[k' v'] d IH]; simpl.
  - by rewrite decide_True.
  - destruct (decide (k' = k)) as [->|Hne]; simpl.
    + by rewrite decide_True.
    + by rewrite decide_False.
Qed.

Lemma odict_get_set_ne d k k' v :
  k ≠ k' → odict.get k' (odict.set k v d) = odict.get k' d.
Proof.
  intros Hne. induction d as [|[k0 v0] d IH]; simpl.
  - by rewrite decide_False.
  - destruct (decide (k0 = k)) as [->|Hne0]; simpl.
    + by rewrite !decide_False.
    + by rewrite IH.
Qed.

Lemma odict_get_elem_of d k v :
  NoDup (odict.keys d) → (k, v) ∈ d → odict.get k d = Some v.
Proof.
  unfold odict.keys. induction d as [|[k0 v0] d IH]; simpl.
  - by intros _ ?%elem_of_nil.
  - rewrite NoDup_cons. intros [Hk0 Hnd] Hin.
    apply elem_of_cons in Hin as [[= <- <-]|Hin].
    + by rewrite decide_True.
    + rewrite decide_False; [by apply IH|].
      intros <-. apply Hk0. apply list_elem_of_fmap. by exists (k0, v).
Qed.
End odict_facts.

(** Assigning the same port to a list of channels, one [d[ch] = port] at a
    time. *)
Lemma odict_get_assign (port : Z) (chans : list Z) (d : list (Z * Z)) (ch : Z) :
  odict.get ch (foldl (λ d c, odict.set c port d) d chans)
  = if decide (ch ∈ chans) then Some port else odict.get ch d.
Proof.
  revert d. induction chans as [|c chans IH]; intros d; cbn [foldl].
  - rewrite decide_False; [done|]. apply not_elem_of_nil.
  - rewrite IH. destruct (decide (ch ∈ chans)) as [Hin|Hnin].
    + rewrite decide_True; [done|]. rewrite elem_of_cons. by right.
    + destruct (decide (c = ch)) as [->|Hne].
      * rewrite decide_True; [|rewrite elem_of_cons; by left].
        apply odict_get_set_eq.
      * rewrite decide_False.
        -- by apply odict_get_set_ne.
        -- rewrite elem_of_cons. intros [->|?]; done.
Qed.

Lemma assign_channels_same (tid port : Z) (chans : list Z)
    (m : gmap Z (list (Z * Z))) :
  t_to_p_get (assign_channels tid port chans m) tid
  = foldl (λ d c, odict.set c port d) (t_to_p_get m tid) chans.
Proof.
  unfold assign_channels. revert m.
  induction chans as [|c chans IH]; intros m; simpl; [done|].
  rewrite IH. f_equal. unfold t_to_p_get at 1. by rewrite lookup_insert_eq.
Qed.

Lemma assign_channels_other (tid tid' port : Z) (chans : list Z)
    (m : gmap Z (list (Z * Z))) :
  tid ≠ tid' → assign_channels tid port chans m !! tid' = m !! tid'.
Proof.
  intros Hne. unfold assign_channels. revert m.
  induction chans as [|c chans IH]; intros m; simpl; [done|].
  rewrite IH. by rewrite lookup_insert_ne.
Qed.

(** ** Channel-mapping resolver *)

Lemma range_from (c : Z) (n : nat) :
  range c (c + Z.of_nat n) = (λ i : nat, c + Z.of_nat i) <$> seq 0 n.
Proof.
  unfold range.
  replace (c + Z.of_nat n - c) with (Z.of_nat n) by lia.
  unfold seqZ. rewrite Nat2Z.id. apply list_fmap_ext. intros; lia.
Qed.

Lemma range_2 (c : Z) : range c (c + 2) = [c; c + 1].
Proof.
  etrans; [exact (range_from c 2)|].
  cbn [seq fmap list_fmap]. by rewrite Z.add_0_r.
Qed.

Lemma range_4 (c : Z) : range c (c + 4) = [c; c + 1; c + 2; c + 3].
Proof.
  etrans; [exact (range_from c 4)|].
  cbn [seq fmap list_fmap]. by rewrite Z.add_0_r.
Qed.

Example channels_40g_from_0 :
  _get_port_channels (T := Mock.NoTelemetry)
    {| _ports := [7]; _port_speeds := {[ 7 := Some 40000 ]}; _info_resp := ∅;
       _status_resp := []; _t_to_p := ∅; _transceiver := [];
       _verbose := false |}
    7 {| channelId := 0; transceiverId := 3; channels := None |}
  = inr [0; 1; 2; 3].
Proof. reflexivity. Qed.

(** C1: for a port of known speed, [_get_port_channels] returns the two
    consecutive channels from the starting index at speed 20000, the four
    consecutive channels from it at speed 40000, and the starting index
    alone at any other speed, an unset speed included; the lists are in
    ascending order. *)
Theorem get_port_channels_by_speed {T} (self : DetailCmd T) (port : Z)
    (xcvr_info : TransceiverIdx) (speed : option Z) :
  _port_speeds self !! port = Some speed →
  let c := channelId xcvr_info in
  _get_port_channels self port xcvr_info
  = inr (if decide (speed = Some 20000) then [c; c + 1]
         else if decide (speed = Some 40000) then [c; c + 1; c + 2; c + 3]
         else [c]).
Proof.
  intros Hspeed c. unfold _get_port_channels. rewrite Hspeed. fold c.
  by rewrite range_2, range_4.
Qed.

Lemma get_port_channels_by_speed_witness :
  _get_port_channels (T := Mock.NoTelemetry)
    {| _ports := [7]; _port_speeds := {[ 7 := Some 20000 ]}; _info_resp := ∅;
       _status_resp := []; _t_to_p := ∅; _transceiver := [];
       _verbose := false |}
    7 {| channelId := 2; transceiverId := 3; channels := None |}
  = inr [2; 3].
Proof.
  exact (get_port_channels_by_speed (T := Mock.NoTelemetry)
           {| _ports := [7]; _port_speeds := {[ 7 := Some 20000 ]};
              _info_resp := ∅; _status_resp := []; _t_to_p := ∅;
              _transceiver := []; _verbose := false |}
           7 {| channelId := 2; transceiverId := 3; channels := None |}
           (Some 20000) eq_refl).
Defined.

(** C8: a non-empty explicit channel list is used as it is: the command
    succeeds whatever the port speeds are (the speed lookup of the
    derivation, which can raise, is not made), the port is entered under
    exactly the listed channels of its transceiver and nothing else
    changes; with an empty or absent list the channels are those of
    [_get_port_channels]. *)
Theorem explicit_channels_are_authoritative {T} (self : DetailCmd T)
    (port : Z) (idx : TransceiverIdx) :
  (∀ c cs, channels idx = Some (c :: cs) →
     ∃ self',
       _get_channel_detail self port idx = inr self' ∧
       _t_to_p self'
         = assign_channels (transceiverId idx) port (c :: cs) (_t_to_p self) ∧
       (∀ ch, odict.get ch (t_to_p_get (_t_to_p self') (transceiverId idx))
              = if decide (ch ∈ c :: cs) then Some port
                else odict.get ch (t_to_p_get (_t_to_p self) (transceiverId idx))) ∧
       (∀ tid, tid ≠ transceiverId idx →
               _t_to_p self' !! tid = _t_to_p self !! tid)) ∧
  (channels idx = None ∨ channels idx = Some [] →
     _get_channel_detail self port idx
     = match _get_port_channels self port idx with
       | inl e => inl e
       | inr chans =>
           inr (with_channel_detail self
                  (assign_channels (transceiverId idx) port chans (_t_to_p self))
                  (if decide (transceiverId idx ∈ _transceiver self)
                   then _transceiver self
                   else _transceiver self ++ [transceiverId idx]))
       end).
Proof.
  split.
  - intros c cs Hch.
    exists (with_channel_detail self
              (assign_channels (transceiverId idx) port (c :: cs) (_t_to_p self))
              (if decide (transceiverId idx ∈ _transceiver self)
               then _transceiver self
               else _transceiver self ++ [transceiverId idx])).
    split; [unfold _get_channel_detail; by rewrite Hch|].
    cbn [with_channel_detail _t_to_p]. split; [done|]. split.
    + intros ch. rewrite assign_channels_same. apply odict_get_assign.
    + intros tid Hne. by apply assign_channels_other.
  - intros [Hch|Hch]; unfold _get_channel_detail; by rewrite Hch.
Qed.

Lemma explicit_channels_are_authoritative_witness :
  ∃ self',
    _get_channel_detail (T := Mock.NoTelemetry)
      {| _ports := [7]; _port_speeds := ∅; _info_resp := ∅;
         _status_resp := []; _t_to_p := ∅; _transceiver := [];
         _verbose := false |}
      7 {| channelId := 0; transceiverId := 3; channels := Some [2; 3] |}
    = inr self' ∧
    _t_to_p self' = {[ 3 := [(2, 7); (3, 7)] ]}.
Proof.
  destruct (proj1 (explicit_channels_are_authoritative (T := Mock.NoTelemetry)
      {| _ports := [7]; _port_speeds := ∅; _info_resp := ∅;
         _status_resp := []; _t_to_p := ∅; _transceiver := [];
         _verbose := false |}
      7 {| channelId := 0; transceiverId := 3; channels := Some [2; 3] |})
    2 [3] eq_refl) as (self' & Hrun & Hmap & _).
  exists self'. split; [exact Hrun|]. rewrite Hmap. reflexivity.
Defined.

(** ** Bits-per-second formatting *)

Lemma Qltb_lt (x y : Q) : Qltb x y = true ↔ (x < y)%Q.
Proof.
  unfold Qltb. rewrite negb_true_iff, <- not_true_iff_false, Qle_bool_iff.
  split; [apply Qnot_le_lt | apply Qlt_not_le].
Qed.

Lemma scaled_lt (bps k : Z) :
  0 < k → (inject_Z bps / inject_Z k < 1000)%Q ↔ bps < 1000 * k.
Proof.
  intros Hk. destruct k as [|k|k]; try lia.
  unfold Qlt, Qdiv, Qmult, Qinv, inject_Z. simpl. lia.
Qed.

Lemma scaled_lt_pow (bps factor : Z) :
  0 ≤ factor →
  (inject_Z bps / inject_Z (10 ^ factor) < 1000)%Q → bps < 1000 * 10 ^ factor.
Proof. intros Hf. apply scaled_lt. by apply Z.pow_pos_nonneg. Qed.

(** The loop variable after one, two and three rounds of [value /= 1000]. *)
Lemma loop_value (bps : Z) :
  (inject_Z bps / 1000 == inject_Z bps / inject_Z (10 ^ 3))%Q ∧
  (inject_Z bps / 1000 / 1000 == inject_Z bps / inject_Z (10 ^ 6))%Q ∧
  (inject_Z bps / 1000 / 1000 / 1000 == inject_Z bps / inject_Z (10 ^ 9))%Q.
Proof.
  repeat split; unfold Qeq, Qdiv, Qmult, Qinv, inject_Z; simpl; lia.
Qed.

Lemma loop_tests (bps : Z) :
  (Qltb (inject_Z bps) 1000 = true ↔ bps < 10 ^ 3) ∧
  (Qltb (inject_Z bps / 1000) 1000 = true ↔ bps < 10 ^ 6) ∧
  (Qltb (inject_Z bps / 1000 / 1000) 1000 = true ↔ bps < 10 ^ 9) ∧
  (Qltb (inject_Z bps / 1000 / 1000 / 1000) 1000 = true ↔ bps < 10 ^ 12).
Proof.
  destruct (loop_value bps) as (H1 & H2 & H3).
  rewrite !Qltb_lt. repeat split.
  - unfold Qlt, inject_Z; simpl. lia.
  - unfold Qlt, inject_Z; simpl. lia.
  - rewrite H1, scaled_lt; lia.
  - rewrite H1, scaled_lt; lia.
  - rewrite H2, scaled_lt; lia.
  - rewrite H2, scaled_lt; lia.
  - rewrite H3, scaled_lt; lia.
  - rewrite H3, scaled_lt; lia.
Qed.

(** Which branch of the loop is taken, by the size of the input. *)
Lemma convert_bps_cases (bps : Z) :
  _convert_bps bps
  = if decide (bps < 10 ^ 3) then
      inr ((inject_Z bps / inject_Z (10 ^ 1))%Q, "bps")
    else if decide (bps < 10 ^ 6) then
      inr ((inject_Z bps / inject_Z (10 ^ 3))%Q, "Kbps")
    else if decide (bps < 10 ^ 9) then
      inr ((inject_Z bps / inject_Z (10 ^ 6))%Q, "Mbps")
    else if decide (bps < 10 ^ 12) then
      inr ((inject_Z bps / inject_Z (10 ^ 9))%Q, "Gbps")
    else inl AssertionError.
Proof.
  destruct (loop_tests bps) as (T0 & T1 & T2 & T3).
  unfold _convert_bps, bps_units, convert_bps_loop.
  destruct (Qltb (inject_Z bps) 1000) eqn:E0.
  { rewrite decide_True; [done|]. by apply T0. }
  rewrite decide_False by (intros H; apply T0 in H; congruence).
  destruct (Qltb (inject_Z bps / 1000) 1000) eqn:E1.
  { rewrite decide_True; [done|]. by apply T1. }
  rewrite decide_False by (intros H; apply T1 in H; congruence).
  destruct (Qltb (inject_Z bps / 1000 / 1000) 1000) eqn:E2.
  { rewrite decide_True; [done|]. by apply T2. }
  rewrite decide_False by (intros H; apply T2 in H; congruence).
  destruct (Qltb (inject_Z bps / 1000 / 1000 / 1000) 1000) eqn:E3.
  { rewrite decide_True; [done|]. by apply T3. }
  rewrite decide_False by (intros H; apply T3 in H; congruence).
  done.
Qed.

Lemma convert_bps_raises (bps : Z) :
  10 ^ 12 ≤ bps → _convert_bps bps = inl AssertionError.
Proof.
  intros H. rewrite convert_bps_cases. repeat case_decide; solve [done | lia].
Qed.

Example convert_bps_1T : _convert_bps (10 ^ 12) = inl AssertionError.
Proof. reflexivity. Qed.

(** Every input from 0 to below 1000 is divided by [10 ** 1]. *)
Lemma convert_bps_below_1000 (bps : Z) :
  0 ≤ bps < 1000 →
  _convert_bps bps = inr ((inject_Z bps / inject_Z 10)%Q, "bps").
Proof.
  intros [_ Hlt]. rewrite convert_bps_cases. by rewrite decide_True by lia.
Qed.

(** C5: the code at the inputs of the claim.  For 1,000,000,000, 500,000
    and 1,000,000 it returns what the claim lists.  For 999 it returns
    99.9 with "bps", not 999.0: the first row of the table is [(1, '')],
    so an input below 1000 is divided by [10 ** 1]. *)
Theorem convert_bps_divides_999_by_ten :
  (∃ q, _convert_bps 999 = inr (q, "bps") ∧
        (q == 999 / 10)%Q ∧ ¬ (q == 999)%Q) ∧
  (∃ q, _convert_bps 1000000000 = inr (q, "Gbps") ∧ (q == 1)%Q) ∧
  (∃ q, _convert_bps 500000 = inr (q, "Kbps") ∧ (q == 500)%Q) ∧
  (∃ q, _convert_bps 1000000 = inr (q, "Mbps") ∧ (q == 1)%Q).
Proof.
  split_and!.
  - eexists. split; [reflexivity|]. split; [reflexivity|discriminate].
  - eexists. split; reflexivity.
  - eexists. split; reflexivity.
  - eexists. split; reflexivity.
Qed.

(** C6, as stated, fails: a speed of [10 ^ 12] bps (a port of one million
    Mbps) is a non-negative input that the caller can pass, and the
    [assert] of [_convert_bps] fails on it. *)
Lemma convert_bps_raises_at_1T :
  0 ≤ 10 ^ 12 ≤ max_bps ∧
  _convert_bps (10 ^ 12) = inl AssertionError ∧
  port_details_text (Mock.info 1 1 1000000) = inl AssertionError.
Proof. split; [unfold max_bps; lia|]. split; reflexivity. Qed.

(** C6 (amended): [_convert_bps] returns a result for every input from 0
    to below [10 ^ 12]; from [10 ^ 12] on, up to the largest input the
    caller can pass, it raises [AssertionError]. *)
Theorem convert_bps_returns_below_1T (bps : Z) :
  (0 ≤ bps < 10 ^ 12 → ∃ r, _convert_bps bps = inr r) ∧
  (10 ^ 12 ≤ bps ≤ max_bps → _convert_bps bps = inl AssertionError).
Proof.
  split; [|intros [Hge _]; by apply convert_bps_raises].
  intros [_ Hlt]. rewrite convert_bps_cases.
  repeat case_decide; try lia; eauto.
Qed.

Lemma convert_bps_returns_below_1T_witness :
  (∃ r, _convert_bps 100000000000 = inr r) ∧
  _convert_bps (400000 * 10 ^ 7) = inl AssertionError.
Proof.
  split.
  - apply (proj1 (convert_bps_returns_below_1T 100000000000)). lia.
  - apply (proj2 (convert_bps_returns_below_1T (400000 * 10 ^ 7))).
    unfold max_bps. lia.
Defined.

(** ** Runs of the command monad *)

Section runs.
Context {S : Type}.
Implicit Types (w : world S) (P : event → Prop).

Lemma trace_of_appended {A} (m : M S A) w evs :
  log (m w).2 = log w ++ evs → trace_of m w = evs.
Proof. unfold trace_of. intros ->. by rewrite drop_app_length. Qed.

Lemma bind_run {A B} (m : M S A) (f : A → M S B) w :
  (m ≫= f) w = match m w with
               | (inl e, w') => (inl e, w')
               | (inr a, w') => f a w'
               end.
Proof. reflexivity. Qed.

Lemma rpc_run {A} (c : call) (h : S → (exn + A) * S) w :
  rpc c h w = ((h (services w)).1,
               World (h (services w)).2 (log w ++ [Rpc c])).
Proof. unfold rpc. by destruct (h (services w)). Qed.

Lemma emits_ret {A} P (a : A) : emits P (mret a : M S A).
Proof. intros w. exists []. by rewrite app_nil_r. Qed.

Lemma emits_raise {A} P (e : exn) : emits P (raise e : M S A).
Proof. intros w. exists []. by rewrite app_nil_r. Qed.

Lemma emits_emit P (ev : event) : P ev → emits P (emit ev : M S unit).
Proof. intros Hev w. exists [ev]. split; [done|]. by constructor. Qed.

Lemma emits_rpc {A} P (c : call) (h : S → (exn + A) * S) :
  P (Rpc c) → emits P (rpc c h).
Proof.
  intros Hev w. exists [Rpc c]. rewrite rpc_run. split; [done|].
  by constructor.
Qed.

Lemma emits_bind {A B} P (m : M S A) (f : A → M S B) :
  emits P m → (∀ a, emits P (f a)) → emits P (m ≫= f).
Proof.
  intros Hm Hf w. rewrite bind_run.
  destruct (Hm w) as (evs & Hlog & Hevs).
  destruct (m w) as [[e|a] w'] eqn:Hrun; simpl in Hlog.
  - by exists evs.
  - destruct (Hf a w') as (evs' & Hlog' & Hevs').
    exists (evs ++ evs'). rewrite Hlog', Hlog, (assoc_L (++)).
    split; [done|]. by apply Forall_app.
Qed.

Lemma emits_for_each {A} P (xs : list A) (body : A → M S unit) :
  (∀ x, x ∈ xs → emits P (body x)) → emits P (for_each xs body).
Proof.
  induction xs as [|x xs IH]; intros Hbody; cbn [for_each].
  - apply emits_ret.
  - apply emits_bind.
    + apply Hbody. rewrite elem_of_cons. by left.
    + intros _. apply IH. intros y Hy. apply Hbody.
      rewrite elem_of_cons. by right.
Qed.

(** A loop whose every round succeeds logs the rounds' events in order. *)
Lemma for_each_ok {A} (xs : list A) (body : A → M S unit)
    (evs : A → list event) :
  (∀ x w, x ∈ xs → ∃ s', body x w = (inr tt, World s' (log w ++ evs x))) →
  ∀ w, ∃ s', for_each xs body w
             = (inr tt, World s' (log w ++ flat_map evs xs)).
Proof.
  induction xs as [|x xs IH]; intros Hbody w; cbn [for_each flat_map].
  - exists (services w). rewrite app_nil_r. by destruct w.
  - rewrite bind_run.
    destruct (Hbody x w) as [s1 ->]; [rewrite elem_of_cons; by left|].
    destruct (IH (λ y w Hy, Hbody y w
                    (proj2 (elem_of_cons xs y x) (or_intror Hy)))
                (World s1 (log w ++ evs x))) as [s2 ->].
    exists s2. cbn [log]. by rewrite (assoc_L (++)).
Qed.
End runs.

(** ** Flapping ports *)

Section flap_facts.
Context {S : Type} (client : AgentClient S).

Lemma flap_disable_emits (kv : Z * PortStatus) :
  emits disable_phase (flap_disable client kv).
Proof.
  destruct kv as [port status]. unfold flap_disable.
  destruct (enabled status).
  - apply emits_bind; [by apply emits_emit|].
    intros _. by apply emits_rpc.
  - by apply emits_emit.
Qed.

Lemma flap_enable_emits (kv : Z * PortStatus) :
  emits enable_phase (flap_enable client kv).
Proof.
  destruct kv as [port status]. unfold flap_enable.
  destruct (enabled status).
  - apply emits_bind; [by apply emits_emit|].
    intros _. by apply emits_rpc.
  - apply emits_ret.
Qed.

(** The log of [flap_ports]: the status request, the disable phase, the
    pause, the enable phase; a raised exception cuts it short.  [Pd] and
    [Pe] are any properties that the rounds of the two loops keep for
    the ports the agent reports. *)
Lemma flap_ports_phases (Pd Pe : event → Prop) (ports : list Z) (w : world S) :
  (∀ resp s1 kv, getPortStatus client ports (services w) = (inr resp, s1) →
     kv ∈ resp →
     emits Pd (flap_disable client kv) ∧ emits Pe (flap_enable client kv)) →
  ∃ dis pause en,
    trace_of (flap_ports client ports) w
    = Rpc (GetPortStatus ports) :: dis ++ pause ++ en ∧
    Forall Pd dis ∧ Forall Pe en ∧
    (pause = [Sleep 1] ∨ pause = [] ∧ en = []).
Proof.
  intros Hrounds.
  unfold flap_ports. set (h := getPortStatus client ports) in *.
  destruct (h (services w)) as [[e|resp] s1] eqn:Hh.
  { exists [], [], []. split; [|by auto].
    apply trace_of_appended. rewrite bind_run, rpc_run, Hh. done. }
  set (w1 := World s1 (log w ++ [Rpc (GetPortStatus ports)])).
  destruct (emits_for_each Pd resp (flap_disable client)
              (λ kv Hkv, proj1 (Hrounds resp s1 kv eq_refl Hkv)) w1)
    as (dis & Hdis & HPdis).
  destruct (for_each resp (flap_disable client) w1) as [[e|[]] w2] eqn:Hrun1.
  { exists dis, [], []. split; [|by auto].
    apply trace_of_appended.
    rewrite bind_run, rpc_run, Hh. cbn [fst snd]. fold w1.
    rewrite bind_run, Hrun1. cbn [snd] in *. rewrite Hdis. cbn [log w1].
    by rewrite app_nil_r, <- (assoc_L (++)). }
  set (w3 := World (services w2) (log w2 ++ [Sleep 1])).
  destruct (emits_for_each Pe resp (flap_enable client)
              (λ kv Hkv, proj2 (Hrounds resp s1 kv eq_refl Hkv)) w3)
    as (en & Hen & HPen).
  exists dis, [Sleep 1], en. split; [|by auto].
  apply trace_of_appended.
  rewrite bind_run, rpc_run, Hh. cbn [fst snd]. fold w1.
  rewrite bind_run, Hrun1, bind_run. cbn [sleep emit]. fold w3.
  rewrite Hen. cbn [snd log w3 w1] in *. rewrite Hdis.
  by rewrite <- !(assoc_L (++)).
Qed.

Lemma flap_ports_shape (ports : list Z) (w : world S) :
  ∃ dis pause en,
    trace_of (flap_ports client ports) w
    = Rpc (GetPortStatus ports) :: dis ++ pause ++ en ∧
    Forall disable_phase dis ∧ Forall enable_phase en ∧
    (pause = [Sleep 1] ∨ pause = [] ∧ en = []).
Proof.
  apply flap_ports_phases. intros resp s1 kv _ _.
  split; [apply flap_disable_emits | apply flap_enable_emits].
Qed.

(** *** An agent that accepts every [setPortState] *)

Lemma set_port_state_ok (port : Z) (enable : bool) (w : world S) :
  accepting client →
  ∃ s', rpc (SetPortState port enable) (setPortState client port enable) w
        = (inr tt, World s' (log w ++ [Rpc (SetPortState port enable)])).
Proof. intros Hacc. rewrite rpc_run, Hacc. eauto. Qed.

Lemma flap_disable_ok (kv : Z * PortStatus) (w : world S) :
  accepting client →
  ∃ s', flap_disable client kv w
        = (inr tt, World s' (log w ++ flap_disable_events kv)).
Proof.
  intros Hacc. destruct kv as [port status].
  unfold flap_disable, flap_disable_events, skip_notice. cbn [fst snd].
  destruct (enabled status); [|by eexists].
  rewrite bind_run. cbn [print emit].
  destruct (set_port_state_ok port false
              (World (services w) (log w ++ [Print ("Disabling port " +:+ pretty port)]))
              Hacc) as [s' ->].
  exists s'. cbn [log]. by rewrite <- (assoc_L (++)).
Qed.

Lemma flap_enable_ok (kv : Z * PortStatus) (w : world S) :
  accepting client →
  ∃ s', flap_enable client kv w
        = (inr tt, World s' (log w ++ flap_enable_events kv)).
Proof.
  intros Hacc. destruct kv as [port status].
  unfold flap_enable, flap_enable_events. cbn [fst snd].
  destruct (enabled status).
  - rewrite bind_run. cbn [print emit].
    destruct (set_port_state_ok port true
                (World (services w) (log w ++ [Print ("Enabling port " +:+ pretty port)]))
                Hacc) as [s' ->].
    exists s'. cbn [log]. by rewrite <- (assoc_L (++)).
  - exists (services w). rewrite app_nil_r. by destruct w.
Qed.

(** With such an agent the flap runs to the end: every enabled port is
    disabled, then the pause, then every enabled port is enabled. *)
Lemma flap_ports_trace (ports : list Z) (w : world S)
    (resp : list (Z * PortStatus)) (s1 : S) :
  accepting client →
  getPortStatus client ports (services w) = (inr resp, s1) →
  (flap_ports client ports w).1 = inr tt ∧
  trace_of (flap_ports client ports) w
  = Rpc (GetPortStatus ports) :: flat_map flap_disable_events resp
    ++ Sleep 1 :: flat_map flap_enable_events resp.
Proof.
  intros Hacc Hresp.
  assert (∃ s', flap_ports client ports w
                = (inr tt, World s' (log w ++
                     Rpc (GetPortStatus ports)
                     :: flat_map flap_disable_events resp
                     ++ Sleep 1 :: flat_map flap_enable_events resp)))
    as [s' Hrun].
  { unfold flap_ports. rewrite bind_run, rpc_run, Hresp. cbn [fst snd].
    rewrite bind_run.
    destruct (for_each_ok resp (flap_disable client) flap_disable_events
                (λ kv w _, flap_disable_ok kv w Hacc)
                (World s1 (log w ++ [Rpc (GetPortStatus ports)])))
      as [s2 ->].
    rewrite bind_run. cbn [sleep emit services log].
    destruct (for_each_ok resp (flap_enable client) flap_enable_events
                (λ kv w _, flap_enable_ok kv w Hacc)
                (World s2 ((log w ++ [Rpc (GetPortStatus ports)])
                           ++ flat_map flap_disable_events resp ++ [Sleep 1])))
      as [s3 Hen].
    exists s3. rewrite <- (assoc_L (++)) in Hen |- *.
    rewrite <- !(assoc_L (++)), Hen. cbn [log]. f_equal. f_equal.
    by rewrite <- !(assoc_L (++)). }
  split; [by rewrite Hrun|].
  apply trace_of_appended. by rewrite Hrun.
Qed.

(** [set_status] with such an agent: a notice and a call per port. *)
Lemma set_status_trace (ports : list Z) (status : bool) (w : world S) :
  accepting client →
  (set_status client ports status w).1 = inr tt ∧
  trace_of (set_status client ports status) w
  = flat_map (set_status_events status) ports.
Proof.
  intros Hacc.
  destruct (for_each_ok ports
              (λ port,
                 print ((if status then "Enabling" else "Disabling")
                        +:+ " port " +:+ pretty port);;
                 rpc (SetPortState port status)
                     (setPortState client port status))
              (set_status_events status)) with (w := w) as [s' Hrun].
  { intros port w' _. rewrite bind_run. cbn [print emit].
    destruct (set_port_state_ok port status
                (World (services w')
                   (log w' ++ [Print ((if status then "Enabling" else "Disabling")
                                      +:+ " port " +:+ pretty port)]))
                Hacc) as [s' ->].
    exists s'. cbn [log]. by rewrite <- (assoc_L (++)). }
  unfold set_status.
  split; [by rewrite Hrun|]. apply trace_of_appended. by rewrite Hrun.
Qed.

(** No round of [flap_ports] calls [setPortState] for a port that the
    agent reports as disabled. *)
Lemma flap_rounds_skip (resp : list (Z * PortStatus)) (port : Z)
    (status : PortStatus) (kv : Z * PortStatus) :
  NoDup (odict.keys resp) → (port, status) ∈ resp → enabled status = false →
  kv ∈ resp →
  let P := λ ev, ∀ b, ev ≠ Rpc (SetPortState port b) in
  emits P (flap_disable client kv) ∧ emits P (flap_enable client kv).
Proof.
  intros Hnd Hport Hoff Hkv P. destruct kv as [p st].
  assert (enabled st = true → p ≠ port) as Hne.
  { intros Hon ->.
    pose proof (odict_get_elem_of _ _ _ Hnd Hport) as H1.
    pose proof (odict_get_elem_of _ _ _ Hnd Hkv) as H2.
    congruence. }
  unfold flap_disable, flap_enable.
  destruct (enabled st).
  - split; (apply emits_bind; [by apply emits_emit|]);
      intros _; apply emits_rpc; intros b [= ? _]; by apply Hne.
  - split; [by apply emits_emit | apply emits_ret].
Qed.

(** C2: in the log of a flap request, a [setPortState(port, False)] call
    comes before every [setPortState(port, True)] call, and the one
    [time.sleep(1)] of the run lies between them, whatever ports are
    asked for, in whatever order, and whatever the agent answers.  With
    an agent that accepts the calls the log is: the status request, the
    disable round of every reported port, the pause, the enable round of
    every reported port. *)
Theorem flap_disables_all_before_enabling (ports : list Z) (w : world S) :
  let tr := trace_of (flap_ports client ports) w in
  (∀ i j p q,
     tr !! i = Some (Rpc (SetPortState p false)) →
     tr !! j = Some (Rpc (SetPortState q true)) →
     ∃ k, (i < k < j)%nat ∧ tr !! k = Some (Sleep 1) ∧
          ∀ k' n, tr !! k' = Some (Sleep n) → k' = k) ∧
  (∀ resp s1,
     accepting client →
     getPortStatus client ports (services w) = (inr resp, s1) →
     tr = Rpc (GetPortStatus ports) :: flat_map flap_disable_events resp
          ++ Sleep 1 :: flat_map flap_enable_events resp).
Proof.
  intros tr. split; [|intros resp s1 Hacc Hresp;
                      by destruct (flap_ports_trace ports w resp s1 Hacc Hresp)].
  subst tr. intros i j p q.
  destruct (flap_ports_shape ports w)
    as (dis & pause & en & -> & Hdis & Hen & Hpause).
  rewrite Forall_lookup in Hdis. rewrite Forall_lookup in Hen.
  intros Hi Hj.
  destruct i as [|i]; [done|]. destruct j as [|j]; [done|].
  cbn [lookup list_lookup] in Hi, Hj.
  apply lookup_app_Some in Hi as [Hi|[_ Hi]]; last first.
  { apply lookup_app_Some in Hi as [Hi|[_ Hi]].
    - destruct Hpause as [->|[-> _]]; [|done].
      by apply list_lookup_singleton_Some in Hi as [_ ?].
    - by apply Hen in Hi. }
  apply lookup_lt_Some in Hi.
  apply lookup_app_Some in Hj as [Hj|[Hjd Hj]].
  { by apply Hdis in Hj. }
  apply lookup_app_Some in Hj as [Hj|[Hjp Hj]].
  { destruct Hpause as [->|[-> _]]; [|done].
    by apply list_lookup_singleton_Some in Hj as [_ ?]. }
  destruct Hpause as [->|[_ ->]]; [|done]. cbn [length] in Hjp.
  exists (Datatypes.S (length dis)). split; [lia|]. split.
  - change ((dis ++ [Sleep 1] ++ en) !! length dis = Some (Sleep 1)).
    rewrite lookup_app_r by lia. by rewrite Nat.sub_diag.
  - intros [|k'] n Hk; [done|]. cbn [lookup list_lookup] in Hk.
    apply lookup_app_Some in Hk as [Hk|[Hkd Hk]].
    { by apply Hdis in Hk. }
    apply lookup_app_Some in Hk as [Hk|[_ Hk]].
    + apply list_lookup_singleton_Some in Hk as [? _]. lia.
    + by apply Hen in Hk.
Qed.

(** C3 (amended): the flap operation makes no [setPortState] call for a
    port that the agent reports as disabled, and prints the skip notice
    for it (when no earlier call of the run raised); [set_status] looks at
    no port status: for every port given it prints its notice and makes
    the [setPortState] call, and with an agent that accepts the calls that
    is its whole log. *)
Theorem flap_skips_disabled_set_status_calls :
  (∀ ports w resp s1 port status,
     getPortStatus client ports (services w) = (inr resp, s1) →
     NoDup (odict.keys resp) →
     (port, status) ∈ resp → enabled status = false →
     (∀ b, Rpc (SetPortState port b) ∉ trace_of (flap_ports client ports) w) ∧
     (accepting client →
      Print (skip_notice port) ∈ trace_of (flap_ports client ports) w)) ∧
  (accepting client →
   ∀ ports status w,
     (set_status client ports status w).1 = inr tt ∧
     trace_of (set_status client ports status) w
     = flat_map (set_status_events status) ports).
Proof.
  split; [|intros Hacc ports status w; by apply set_status_trace].
  intros ports w resp s1 port status Hresp Hnd Hport Hoff. split.
  - intros b.
    destruct (flap_ports_phases
                (λ ev, ∀ b, ev ≠ Rpc (SetPortState port b))
                (λ ev, ∀ b, ev ≠ Rpc (SetPortState port b)) ports w)
      as (dis & pause & en & -> & Hdis & Hen & Hpause).
    { intros resp' s1' kv Hresp' Hkv.
      rewrite Hresp in Hresp'. injection Hresp' as <- <-.
      by apply (flap_rounds_skip resp port status kv). }
    rewrite Forall_forall in Hdis. rewrite Forall_forall in Hen.
    rewrite elem_of_cons, !elem_of_app.
    intros [?|[Hin|[Hin|Hin]]];
      [done|by apply (Hdis _ Hin b)| |by apply (Hen _ Hin b)].
    destruct Hpause as [->|[-> _]].
    + by apply list_elem_of_singleton in Hin.
    + by apply elem_of_nil in Hin.
  - intros Hacc.
    destruct (flap_ports_trace ports w resp s1 Hacc Hresp) as [_ ->].
    rewrite elem_of_cons. right. rewrite elem_of_app. left.
    apply list_elem_of_In, in_flat_map. exists (port, status).
    split; [by apply list_elem_of_In|].
    unfold flap_disable_events. cbn [fst snd]. rewrite Hoff. by left.
Qed.
End flap_facts.

Lemma flap_disables_all_before_enabling_witness :
  let tr := trace_of (flap_ports Mock.agent [2; 1; 3])
              (Mock.start Mock.three_ports) in
  tr !! 4%nat = Some (Rpc (SetPortState 1 false)) ∧
  tr !! 8%nat = Some (Rpc (SetPortState 2 true)) ∧
  ∃ k, (4 < k < 8)%nat ∧ tr !! k = Some (Sleep 1) ∧
       ∀ k' n, tr !! k' = Some (Sleep n) → k' = k.
Proof.
  split; [reflexivity|]. split; [reflexivity|].
  apply (proj1 (flap_disables_all_before_enabling Mock.agent [2; 1; 3]
                  (Mock.start Mock.three_ports)) 4%nat 8%nat 1 2);
    reflexivity.
Defined.

Example flap_three_ports :
  trace_of (flap_ports Mock.agent [2; 1; 3]) (Mock.start Mock.three_ports)
  = [Rpc (GetPortStatus [2; 1; 3]);
     Print "Disabling port 2"; Rpc (SetPortState 2 false);
     Print "Disabling port 1"; Rpc (SetPortState 1 false);
     Print "Port 3 is disabled by configuration, cannot flap";
     Sleep 1;
     Print "Enabling port 2"; Rpc (SetPortState 2 true);
     Print "Enabling port 1"; Rpc (SetPortState 1 true)].
Proof. reflexivity. Qed.

Lemma mock_agent_accepting : accepting Mock.agent.
Proof. intros port enable s. reflexivity. Qed.

Lemma flap_skips_disabled_set_status_calls_witness :
  (∀ b, Rpc (SetPortState 3 b)
          ∉ trace_of (flap_ports Mock.agent [2; 1; 3])
              (Mock.start Mock.three_ports)) ∧
  Print (skip_notice 3)
    ∈ trace_of (flap_ports Mock.agent [2; 1; 3]) (Mock.start Mock.three_ports).
Proof.
  destruct (proj1 (flap_skips_disabled_set_status_calls Mock.agent)
              [2; 1; 3] (Mock.start Mock.three_ports)
              (Mock.statuses Mock.three_ports) Mock.three_ports
              3 (Mock.status false None)) as [Hcalls Hnotice].
  - reflexivity.
  - apply (bool_decide_unpack _). reflexivity.
  - unfold Mock.three_ports, Mock.statuses. rewrite !elem_of_cons. auto.
  - reflexivity.
  - split; [exact Hcalls | exact (Hnotice mock_agent_accepting)].
Defined.

(** C3, as stated, fails for [set_status]: the mock agent reports port 3
    as disabled, and an enable request for it prints no skip notice and
    makes the [setPortState] call. *)
Lemma set_status_enables_disabled_port :
  (getPortStatus Mock.agent [3] Mock.three_ports).1
    = inr [(3, Mock.status false None)] ∧
  trace_of (set_status Mock.agent [3] true) (Mock.start Mock.three_ports)
    = [Print "Enabling port 3"; Rpc (SetPortState 3 true)].
Proof. split; reflexivity. Qed.

(** ** The details command *)

Lemma insert_by_perm {A} (le : A → A → bool) (x : A) (l : list A) :
  insert_by le x l ≡ₚ x :: l.
Proof.
  induction l as [|y l IH]; cbn [insert_by]; [done|].
  destruct (le x y); [done|]. rewrite IH. apply Permutation_swap.
Qed.

Lemma sorted_by_perm {A} (le : A → A → bool) (l : list A) :
  sorted_by le l ≡ₚ l.
Proof.
  unfold sorted_by. induction l as [|x l IH]; cbn [foldr]; [done|].
  by rewrite insert_by_perm, IH.
Qed.

Section details_facts.
Context {S : Type} (client : AgentClient S).
Context (port_sort_le : PortInfo → PortInfo → bool).

Lemma print_lines_run (lines : list string) (w : world S) :
  print_lines lines w
  = (inr tt, World (services w) (log w ++ (Print <$> lines))).
Proof.
  unfold print_lines. revert w.
  induction lines as [|l lines IH]; intros w; cbn [for_each fmap list_fmap].
  - rewrite app_nil_r. by destruct w.
  - rewrite bind_run. cbn [print emit]. rewrite IH. cbn [services log].
    by rewrite <- (assoc_L (++)).
Qed.

(** A port whose info is at hand and renders: three [print] calls. *)
Lemma print_port_details_given (port_id : Z) (info : PortInfo) (w : world S)
    (text : list string) :
  port_details_text info = inr text →
  _print_port_details client port_id (Some info) w
  = (inr tt, World (services w) (log w ++ port_details_events info)).
Proof.
  intros Htext. unfold _print_port_details, port_details_events.
  rewrite !bind_run. cbn [mret M_ret]. rewrite Htext. cbn [lift].
  apply print_lines_run.
Qed.

(** A port whose info is fetched first. *)
Lemma print_port_details_fetched (port_id : Z) (info : PortInfo)
    (w : world S) (s1 : S) (text : list string) :
  getPortInfo client port_id (services w) = (inr info, s1) →
  port_details_text info = inr text →
  _print_port_details client port_id None w
  = (inr tt, World s1 (log w ++ Rpc (GetPortInfo port_id)
                                :: port_details_events info)).
Proof.
  intros Hinfo Htext. unfold _print_port_details, port_details_events.
  rewrite bind_run, rpc_run, Hinfo. cbn [fst snd].
  rewrite bind_run, Htext. cbn [lift].
  rewrite print_lines_run. cbn [services log].
  by rewrite <- (assoc_L (++)).
Qed.

(** The log of the details command in terms of the text that
    [port_details_text] computes, for ports that render. *)
Lemma details_run_log :
  (∀ w resp s1,
     getAllPortInfo client (services w) = (inr resp, s1) → resp ≠ [] →
     (∀ info, info ∈ odict.values resp → operState info = 1 →
              ∃ text, port_details_text info = inr text) →
     let printed :=
       filter (λ info, operState info = 1)
              (sorted_by port_sort_le (odict.values resp)) in
     (PortDetailsCmd_run client port_sort_le [] w).1 = inr tt ∧
     trace_of (PortDetailsCmd_run client port_sort_le []) w
     = Rpc GetAllPortInfo :: flat_map port_details_events printed ∧
     ∀ info, info ∈ printed ↔ info ∈ odict.values resp ∧ operState info = 1) ∧
  (∀ w ports info_of,
     ports ≠ [] →
     (∀ port s, port ∈ ports →
                ∃ s', getPortInfo client port s = (inr (info_of port), s')) →
     (∀ port, port ∈ ports →
              ∃ text, port_details_text (info_of port) = inr text) →
     (PortDetailsCmd_run client port_sort_le ports w).1 = inr tt ∧
     trace_of (PortDetailsCmd_run client port_sort_le ports) w
     = flat_map (λ port, Rpc (GetPortInfo port)
                         :: port_details_events (info_of port)) ports).
Proof.
  split.
  - intros w resp s1 Hresp Hne Hrender printed.
    assert (∀ info, info ∈ printed ↔
                    info ∈ odict.values resp ∧ operState info = 1) as Hprinted.
    { intros info. unfold printed.
      rewrite list_elem_of_filter, sorted_by_perm. tauto. }
    destruct (for_each_ok printed
                (λ port, _print_port_details client (portId port) (Some port))
                port_details_events) with
        (w := World s1 (log w ++ [Rpc GetAllPortInfo])) as [s2 Hrun].
    { intros info w' [Hin Hup]%Hprinted.
      destruct (Hrender info Hin Hup) as [text Htext].
      exists (services w'). by eapply print_port_details_given. }
    assert (PortDetailsCmd_run client port_sort_le [] w
            = (inr tt, World s2 (log w ++ Rpc GetAllPortInfo
                                 :: flat_map port_details_events printed)))
      as Hall.
    { unfold PortDetailsCmd_run. rewrite bind_run.
      unfold try_catch, fmap, M_fmap. rewrite bind_run, rpc_run, Hresp.
      cbn [fst snd mret M_ret].
      destruct resp as [|kv resp]; [done|].
      fold printed. rewrite Hrun. cbn [log].
      by rewrite <- (assoc_L (++)). }
    split_and!; [by rewrite Hall | | done].
    apply trace_of_appended. by rewrite Hall.
  - intros w ports info_of Hne Hfetch Hrender.
    destruct (for_each_ok ports
                (λ port, _print_port_details client port None)
                (λ port, Rpc (GetPortInfo port)
                         :: port_details_events (info_of port)))
      with (w := w) as [s2 Hrun].
    { intros port w' Hin.
      destruct (Hfetch port (services w') Hin) as [s' Hinfo].
      destruct (Hrender port Hin) as [text Htext].
      exists s'. by eapply print_port_details_fetched. }
    assert (PortDetailsCmd_run client port_sort_le ports w
            = (inr tt, World s2 (log w ++
                 flat_map (λ port, Rpc (GetPortInfo port)
                                   :: port_details_events (info_of port)) ports)))
      as Hall.
    { unfold PortDetailsCmd_run. destruct ports as [|p ports]; [done|].
      rewrite bind_run. unfold try_catch. cbn [mret M_ret]. apply Hrun. }
    split; [by rewrite Hall|]. apply trace_of_appended. by rewrite Hall.
Qed.

(** What [_print_port_details] logs for a port with a speed from 0 to
    below one million Mbps, written out. *)
Lemma port_details_events_written_out (info : PortInfo) (mbps : Z) :
  speedMbps info = Some mbps → 0 ≤ mbps < 10 ^ 6 →
  (∃ text, port_details_text info = inr text) ∧
  port_details_events info
  = [Print "";
     Print (join newline
              [ljust 50 dot "Name" +:+ strip (name info);
               ljust 50 dot "Port ID" +:+ pretty (portId info);
               ljust 50 dot "Admin State" +:+
                 (if decide (adminState info = 0) then "DISABLED" else "ENABLED");
               ljust 50 dot "Link State" +:+
                 (if decide (operState info = 0) then "DOWN" else "UP");
               ljust 50 dot "Speed" +:+ 
                 match _convert_bps (mbps * 10 ^ 6) with
                 | inr (speed, suffix) => format_0f speed +:+ " " +:+ suffix
                 | inl _ => ""
                 end;
               ljust 50 dot "VLANs" +:+
                 join " " (pretty <$> default [] (vlans info));
               ljust 50 dot "Forward Error Correction" +:+
                 match fecEnabled info with
                 | None => "N/A"
                 | Some true => "ENABLED"
                 | Some false => "DISABLED"
                 end]);
     Print (ljust 20 dot "Description" +:+ default "" (description info))].
Proof.
  intros Hspeed Hrange.
  assert (∃ speed suffix, _convert_bps (mbps * 10 ^ 6) = inr (speed, suffix))
    as (speed & suffix & Hconv).
  { rewrite convert_bps_cases. repeat case_decide; try lia; eauto. }
  unfold port_details_events, port_details_text.
  rewrite Hspeed, Hconv. split; [by eexists|reflexivity].
Qed.

Lemma flat_map_ext_elem {A B} (f g : A → list B) (l : list A) :
  (∀ x, x ∈ l → f x = g x) → flat_map f l = flat_map g l.
Proof.
  induction l as [|x l IH]; intros Hfg; cbn [flat_map]; [done|].
  rewrite Hfg by (rewrite elem_of_cons; by left). f_equal.
  apply IH. intros y Hy. apply Hfg. rewrite elem_of_cons. by right.
Qed.

(** C9: without ports on the command line the details command asks for
    all ports and prints, in sorted order, the details of exactly the
    ports whose [operState] is 1, leaving out every other port without a
    word; with ports on the command line it fetches and prints each of
    them, whatever its state.  The details of a port are an empty line,
    the seven labelled lines and the description line, as written out in
    [details].  (The ports that are printed are assumed to have a speed
    from 0 to below one million Mbps; others raise.) *)
Theorem details_lists_only_up_ports :
  let speed_label (info : PortInfo) : string :=
    match speedMbps info with
    | Some mbps =>
        match _convert_bps (mbps * 10 ^ 6) with
        | inr (speed, suffix) => format_0f speed +:+ " " +:+ suffix
        | inl _ => ""
        end
    | None => ""
    end in
  let details (info : PortInfo) : list event :=
    [Print "";
     Print (join newline
              [ljust 50 dot "Name" +:+ strip (name info);
               ljust 50 dot "Port ID" +:+ pretty (portId info);
               ljust 50 dot "Admin State" +:+
                 (if decide (adminState info = 0) then "DISABLED" else "ENABLED");
               ljust 50 dot "Link State" +:+
                 (if decide (operState info = 0) then "DOWN" else "UP");
               ljust 50 dot "Speed" +:+ speed_label info;
               ljust 50 dot "VLANs" +:+
                 join " " (pretty <$> default [] (vlans info));
               ljust 50 dot "Forward Error Correction" +:+
                 match fecEnabled info with
                 | None => "N/A"
                 | Some true => "ENABLED"
                 | Some false => "DISABLED"
                 end]);
     Print (ljust 20 dot "Description" +:+ default "" (description info))] in
  let renders (info : PortInfo) : Prop :=
    ∃ mbps, speedMbps info = Some mbps ∧ 0 ≤ mbps < 10 ^ 6 in
  (∀ w resp s1,
     getAllPortInfo client (services w) = (inr resp, s1) → resp ≠ [] →
     (∀ info, info ∈ odict.values resp → operState info = 1 → renders info) →
     let printed :=
       filter (λ info, operState info = 1)
              (sorted_by port_sort_le (odict.values resp)) in
     (PortDetailsCmd_run client port_sort_le [] w).1 = inr tt ∧
     trace_of (PortDetailsCmd_run client port_sort_le []) w
     = Rpc GetAllPortInfo :: flat_map details printed ∧
     ∀ info, info ∈ printed ↔ info ∈ odict.values resp ∧ operState info = 1) ∧
  (∀ w ports info_of,
     ports ≠ [] →
     (∀ port s, port ∈ ports →
                ∃ s', getPortInfo client port s = (inr (info_of port), s')) →
     (∀ port, port ∈ ports → renders (info_of port)) →
     (PortDetailsCmd_run client port_sort_le ports w).1 = inr tt ∧
     trace_of (PortDetailsCmd_run client port_sort_le ports) w
     = flat_map (λ port, Rpc (GetPortInfo port) :: details (info_of port))
         ports).
Proof.
  intros speed_label details renders.
  assert (∀ info, renders info →
            (∃ text, port_details_text info = inr text) ∧
            port_details_events info = details info) as Hwritten.
  { intros info (mbps & Hspeed & Hrange).
    destruct (port_details_events_written_out info mbps Hspeed Hrange)
      as [Htext Hevents].
    split; [done|]. rewrite Hevents. subst details speed_label. cbn beta.
    by rewrite Hspeed. }
  split.
  - intros w resp s1 Hresp Hne Hrender printed.
    destruct (proj1 details_run_log w resp s1 Hresp Hne)
      as (Hres & Hlog & Hprinted).
    { intros info Hin Hup. by apply Hwritten, Hrender. }
    fold printed in Hlog, Hprinted. split_and!; [done| |done].
    rewrite Hlog. f_equal. apply flat_map_ext_elem.
    intros info [Hin Hup]%Hprinted. by apply Hwritten, Hrender.
  - intros w ports info_of Hne Hfetch Hrender.
    destruct (proj2 details_run_log w ports info_of Hne Hfetch)
      as (Hres & Hlog).
    { intros port Hin. by apply Hwritten, Hrender. }
    split; [done|]. rewrite Hlog. apply flat_map_ext_elem.
    intros port Hin. f_equal. by apply Hwritten, Hrender.
Qed.
End details_facts.

Example details_of_all_ports :
  trace_of (PortDetailsCmd_run Mock.agent Mock.by_port_id [])
    (Mock.start Mock.three_ports)
  = [Rpc GetAllPortInfo;
     Print "";
     Print (join newline
       ["Name..............................................eth1/2/1";
        "Port ID...........................................2";
        "Admin State.......................................ENABLED";
        "Link State........................................UP";
        "Speed.............................................40 Gbps";
        "VLANs.............................................2002";
        "Forward Error Correction..........................N/A"]);
     Print "Description.........";
     Print "";
     Print (join newline
       ["Name..............................................eth1/3/1";
        "Port ID...........................................3";
        "Admin State.......................................ENABLED";
        "Link State........................................UP";
        "Speed.............................................100 Gbps";
        "VLANs.............................................2003";
        "Forward Error Correction..........................N/A"]);
     Print "Description........."].
Proof. reflexivity. Qed.

Example details_of_a_down_port :
  trace_of (PortDetailsCmd_run Mock.agent Mock.by_port_id [1])
    (Mock.start Mock.three_ports)
  = [Rpc (GetPortInfo 1);
     Print "";
     Print (join newline
       ["Name..............................................eth1/1/1";
        "Port ID...........................................1";
        "Admin State.......................................ENABLED";
        "Link State........................................DOWN";
        "Speed.............................................10 Gbps";
        "VLANs.............................................2001";
        "Forward Error Correction..........................N/A"]);
     Print "Description........."].
Proof. reflexivity. Qed.

Lemma details_lists_only_up_ports_witness :
  (PortDetailsCmd_run Mock.agent Mock.by_port_id []
     (Mock.start Mock.three_ports)).1 = inr tt ∧
  trace_of (PortDetailsCmd_run Mock.agent Mock.by_port_id [])
    (Mock.start Mock.three_ports)
  = [Rpc GetAllPortInfo;
     Print "";
     Print (join newline
       ["Name..............................................eth1/2/1";
        "Port ID...........................................2";
        "Admin State.......................................ENABLED";
        "Link State........................................UP";
        "Speed.............................................40 Gbps";
        "VLANs.............................................2002";
        "Forward Error Correction..........................N/A"]);
     Print "Description.........";
     Print "";
     Print (join newline
       ["Name..............................................eth1/3/1";
        "Port ID...........................................3";
        "Admin State.......................................ENABLED";
        "Link State........................................UP";
        "Speed.............................................100 Gbps";
        "VLANs.............................................2003";
        "Forward Error Correction..........................N/A"]);
     Print "Description........."].
Proof.
  destruct (proj1 (details_lists_only_up_ports Mock.agent Mock.by_port_id)
              (Mock.start Mock.three_ports) (Mock.infos Mock.three_ports)
              Mock.three_ports) as (Hres & Hlog & _).
  - reflexivity.
  - discriminate.
  - intros info Hin _.
    unfold odict.values, Mock.three_ports, Mock.infos in Hin.
    cbn [fmap list_fmap snd] in Hin.
    rewrite !elem_of_cons, elem_of_nil in Hin.
    destruct Hin as [->|[->|[->|[]]]]; eexists; (split; [reflexivity|]);
      cbn; lia.
  - split; [exact Hres|]. rewrite Hlog. reflexivity.
Defined.

(** ** The detailed status report *)

Section detail_facts.
Context {T : TelemetryModel} {S : Type} (qsfp_client : QsfpClient T S).

Lemma get_channel_detail_raises (self : DetailCmd T) (port : Z)
    (idx : TransceiverIdx) (e : exn) :
  _get_channel_detail self port idx = inl e → e = KeyError.
Proof.
  unfold _get_channel_detail, _get_port_channels.
  destruct (list_truthy (channels idx)); [done|].
  destruct (_port_speeds self !! port); [done|]. by intros [= <-].
Qed.

Lemma collect_channel_detail_raises (self : DetailCmd T)
    (items : list (Z * PortStatus)) (e : exn) :
  collect_channel_detail self items = inl e → e = KeyError.
Proof.
  revert self. induction items as [|[port status] items IH]; intros self;
    cbn [collect_channel_detail]; [done|].
  destruct (transceiverIdx status) as [idx|]; [|apply IH].
  destruct (_get_channel_detail self port idx) as [e'|self'] eqn:Hdetail.
  - intros [= <-]. by eapply get_channel_detail_raises.
  - apply IH.
Qed.

(** C4 (amended): when the telemetry call raises [TApplicationException],
    [get_detail_status] does not pass the exception on: it returns as soon
    as the channel map is built (or with the [KeyError] of building it)
    and prints nothing at all, no basic status line either. *)
Theorem telemetry_unsupported_prints_nothing (self : DetailCmd T)
    (w : world S) :
  (∀ tids, (getTransceiverInfo qsfp_client tids (services w)).1
           = inl TApplicationException) →
  (get_detail_status qsfp_client self w).1
  = collect_channel_detail self (odict.sorted_items (_status_resp self)) ∧
  (get_detail_status qsfp_client self w).1 ≠ inl TApplicationException ∧
  ∀ text, Print text ∉ trace_of (get_detail_status qsfp_client self) w.
Proof.
  intros Hold.
  assert (∃ s' evs,
            get_detail_status qsfp_client self w
            = (collect_channel_detail self
                 (odict.sorted_items (_status_resp self)),
               World s' (log w ++ evs)) ∧
            (evs = [] ∨ ∃ tids, evs = [Rpc (GetTransceiverInfo tids)]))
    as (s' & evs & Hrun & Hevs).
  { unfold get_detail_status. rewrite bind_run. cbn [lift].
    destruct (collect_channel_detail self _) as [e|self1].
    { exists (services w), []. rewrite app_nil_r. destruct w; auto. }
    destruct (_transceiver self1) as [|tid tids] eqn:Htids.
    { exists (services w), []. rewrite app_nil_r. destruct w; auto. }
    rewrite bind_run. unfold try_catch, fmap, M_fmap.
    rewrite bind_run, rpc_run, Hold. cbn [fst snd].
    rewrite decide_True by done. cbn [mret M_ret].
    eexists _, _. split; [reflexivity|]. right. by eexists. }
  rewrite Hrun. cbn [fst]. split; [done|]. split.
  - intros Hraise. by apply collect_channel_detail_raises in Hraise.
  - intros text. rewrite (trace_of_appended _ w evs) by (by rewrite Hrun).
    destruct Hevs as [->|[tids ->]].
    + apply not_elem_of_nil.
    + by intros ?%list_elem_of_singleton.
Qed.

(** [_get_dummy_status] files the placeholder under the port, not under
    the transceiver. *)
Lemma dummy_status_keyed_by_port (self : DetailCmd T) (port : Z)
    (status : PortStatus) (idx : TransceiverIdx) :
  _status_resp self = [(port, status)] → _info_resp self = ∅ →
  transceiverIdx status = Some idx → transceiverId idx ≠ port →
  _info_resp (_get_dummy_status self) !! port = Some (dummy_info port) ∧
  _info_resp (_get_dummy_status self) !! transceiverId idx = None.
Proof.
  intros Hstatus Hinfo Hidx Hne. unfold _get_dummy_status.
  rewrite Hstatus, Hinfo. cbn. rewrite Hidx.
  rewrite decide_False by set_solver.
  rewrite lookup_insert_eq, lookup_insert_ne by done. by rewrite lookup_empty.
Qed.
End detail_facts.

Lemma telemetry_unsupported_prints_nothing_witness :
  let self : DetailCmd Mock.NoTelemetry :=
    {| _ports := [5]; _port_speeds := {[ 5 := Some 10000 ]};
       _info_resp := ∅; _status_resp := Mock.statuses Mock.old_qsfp;
       _t_to_p := ∅; _transceiver := []; _verbose := false |} in
  let w := Mock.start Mock.old_qsfp in
  (get_detail_status Mock.qsfp self w).1
  = collect_channel_detail self (odict.sorted_items (_status_resp self)) ∧
  (get_detail_status Mock.qsfp self w).1 ≠ inl TApplicationException ∧
  ∀ text, Print text ∉ trace_of (get_detail_status Mock.qsfp self) w.
Proof.
  intros self w.
  apply (telemetry_unsupported_prints_nothing Mock.qsfp self w).
  intros tids. reflexivity.
Defined.

(** C4, as stated, fails: port 5 is asked for, the qsfp service raises
    [TApplicationException], and the report ends normally after the three
    remote calls without a single printed line. *)
Lemma unsupported_telemetry_no_port_line :
  let run := PortStatusCmd_run_detail Mock.qsfp Mock.agent [5] false
               (Mock.start Mock.old_qsfp) in
  Mock.telemetry Mock.old_qsfp = inl TApplicationException ∧
  (∃ cmd, run.1 = inr cmd) ∧
  log run.2 = [Rpc GetAllPortInfo; Rpc (GetPortStatus [5]);
               Rpc (GetTransceiverInfo [4])].
Proof.
  split; [reflexivity|]. split; [|reflexivity].
  eexists. vm_compute. reflexivity.
Qed.

(** C7: a port numbered 5 on transceiver 4, whose cage is empty (the
    telemetry answer has no record for 4).  The placeholder is stored
    under key 5, the report looks up key 4, and the command ends with
    [KeyError] without printing the port. *)
Theorem empty_cage_raises_key_error :
  let run := PortStatusCmd_run_detail Mock.qsfp Mock.agent [5] false
               (Mock.start Mock.empty_cage) in
  run.1 = inl KeyError ∧
  log run.2 = [Rpc GetAllPortInfo; Rpc (GetPortStatus [5]);
               Rpc (GetTransceiverInfo [4])].
Proof. split; vm_compute; reflexivity. Qed.

(** The same cage when the port happens to have the transceiver's number:
    the placeholder is found and the port is printed as absent. *)
Example empty_cage_same_id_prints_absent :
  log (PortStatusCmd_run_detail Mock.qsfp Mock.agent [4] false
         (Mock.start Mock.empty_cage_same_id)).2
  = [Rpc GetAllPortInfo; Rpc (GetPortStatus [4]); Rpc (GetTransceiverInfo [4]);
     Print "Port:  4  Status: Enabled   Link: Up    Transceiver: Absent"].
Proof. vm_compute. reflexivity. Qed.

(** ** Milliwatt to dBm *)

Lemma mw_to_dbm_negative (mw : R) :
  (mw < 0)%R → _mw_to_dbm mw = inl ValueError.
Proof.
  intros Hneg. unfold _mw_to_dbm, math_log10.
  destruct (Req_dec_T mw 0) as [->|_]; [lra|].
  destruct (Rlt_dec 0 mw); [lra|done].
Qed.

(** C10: [_mw_to_dbm] returns 0.0 for the input 0 without taking a
    logarithm, returns ten times the decimal logarithm for every positive
    input, and so returns a value for every input that is not negative. *)
Theorem mw_to_dbm_total :
  _mw_to_dbm 0 = inr 0%R ∧
  (∀ mw, (0 < mw)%R → _mw_to_dbm mw = inr (10 * (ln mw / ln 10))%R) ∧
  (∀ mw, (0 <= mw)%R → ∃ dbm, _mw_to_dbm mw = inr dbm).
Proof.
  assert (_mw_to_dbm 0 = inr 0%R) as Hzero.
  { unfold _mw_to_dbm. by destruct (Req_dec_T 0 0). }
  assert (∀ mw, (0 < mw)%R → _mw_to_dbm mw = inr (10 * (ln mw / ln 10))%R)
    as Hpos.
  { intros mw Hmw. unfold _mw_to_dbm, math_log10.
    destruct (Req_dec_T mw 0) as [->|_]; [lra|].
    destruct (Rlt_dec 0 mw); [done|lra]. }
  split; [done|]. split; [done|].
  intros mw [Hmw| <-]; [|by eexists].
  eexists. by apply Hpos.
Qed.

Lemma mw_to_dbm_total_witness :
  _mw_to_dbm 2 = inr (10 * (ln 2 / ln 10))%R.
Proof. apply (proj1 (proj2 mw_to_dbm_total) 2%R). lra. Defined.

(** * Further properties of the module *)

(** ** First occurrences *)

Lemma unseen_ext (seen1 seen2 l : list Z) :
  (∀ x, x ∈ seen1 ↔ x ∈ seen2) → unseen seen1 l = unseen seen2 l.
Proof.
  revert seen1 seen2. induction l as [|x l IH]; intros seen1 seen2 Hsame;
    cbn [unseen]; [done|].
  destruct (decide (x ∈ seen1)) as [Hin|Hnin].
  - rewrite decide_True by (by apply Hsame). by apply IH.
  - rewrite decide_False by (by rewrite <- Hsame). f_equal. apply IH.
    intros y. rewrite !elem_of_app, Hsame. done.
Qed.

Lemma elem_of_unseen (seen l : list Z) (x : Z) :
  x ∈ seen ++ unseen seen l ↔ x ∈ seen ∨ x ∈ l.
Proof.
  revert seen. induction l as [|y l IH]; intros seen; cbn [unseen].
  - rewrite app_nil_r, elem_of_nil. tauto.
  - destruct (decide (y ∈ seen)) as [Hin|Hnin].
    + rewrite IH, elem_of_cons. split; [tauto|].
      intros [?|[->|?]]; auto.
    + rewrite (cons_middle y), (assoc_L (++)), IH.
      rewrite elem_of_app, list_elem_of_singleton, elem_of_cons. tauto.
Qed.

Lemma unseen_NoDup (seen l : list Z) :
  NoDup seen → NoDup (seen ++ unseen seen l).
Proof.
  revert seen. induction l as [|y l IH]; intros seen Hnd; cbn [unseen].
  - by rewrite app_nil_r.
  - destruct (decide (y ∈ seen)) as [Hin|Hnin]; [by apply IH|].
    rewrite (cons_middle y), (assoc_L (++)). apply IH.
    apply NoDup_app. split; [done|]. split.
    + intros x Hx ->%list_elem_of_singleton. done.
    + apply NoDup_singleton.
Qed.

Lemma sorted_items_perm {V} (d : list (Z * V)) : odict.sorted_items d ≡ₚ d.
Proof.
  unfold odict.sorted_items. induction d as [|kv d IH]; cbn [foldr]; [done|].
  rewrite <- IH at 2. generalize (foldr odict.insert_sorted [] d).
  intros l. induction l as [|kv' l IHl]; cbn [odict.insert_sorted]; [done|].
  destruct (decide (kv.1 ≤ kv'.1)); [done|].
  rewrite IHl. apply Permutation_swap.
Qed.

(** ** Building the channel map *)

Section channel_map_facts.
Context {T : TelemetryModel}.
Implicit Types (self : DetailCmd T) (idx : TransceiverIdx).

(** The channels [_get_channel_detail] works with are never empty. *)
Lemma get_channel_detail_result self port idx self' :
  _get_channel_detail self port idx = inr self' →
  ∃ c cs,
    self' = with_channel_detail self
              (assign_channels (transceiverId idx) port (c :: cs) (_t_to_p self))
              (if decide (transceiverId idx ∈ _transceiver self)
               then _transceiver self
               else _transceiver self ++ [transceiverId idx]).
Proof.
  unfold _get_channel_detail.
  destruct (if list_truthy (channels idx) then _ else _)
    as [e|chans] eqn:Hchans; [done|].
  assert (chans ≠ []) as Hne.
  { destruct (channels idx) as [[|c cs]|]; cbn [list_truthy default] in Hchans.
    2: by injection Hchans as <-.
    all: unfold _get_port_channels in Hchans.
    all: destruct (_port_speeds self !! port) as [speed|]; [|done].
    all: rewrite range_2, range_4 in Hchans.
    all: injection Hchans as <-; by repeat case_decide. }
  destruct chans as [|c cs]; [done|]. intros [= <-]. by exists c, cs.
Qed.

Lemma get_channel_detail_ok_iff self port idx :
  (∃ self', _get_channel_detail self port idx = inr self') ↔
  list_truthy (channels idx) = true ∨ is_Some (_port_speeds self !! port).
Proof.
  unfold _get_channel_detail, _get_port_channels.
  destruct (list_truthy (channels idx)).
  - split; [by left|]. intros _. by eexists.
  - destruct (_port_speeds self !! port) as [speed|].
    + split; [by right|]. intros _. by eexists.
    + split; [by intros [? [=]]|]. by intros [[=]|[? [=]]].
Qed.

(** X3: when [_get_channel_detail] succeeds the port holds at least one
    channel of its transceiver in the map, the transceiver is in the
    request list, and a request list without repetitions stays so. *)
Theorem get_channel_detail_enters_port self port idx self' :
  _get_channel_detail self port idx = inr self' →
  (∃ ch, odict.get ch (t_to_p_get (_t_to_p self') (transceiverId idx))
         = Some port) ∧
  transceiverId idx ∈ _transceiver self' ∧
  (NoDup (_transceiver self) → NoDup (_transceiver self')).
Proof.
  intros (c & cs & ->)%get_channel_detail_result.
  cbn [with_channel_detail _t_to_p _transceiver]. split_and!.
  - exists c. rewrite assign_channels_same, odict_get_assign.
    rewrite decide_True; [done|]. rewrite elem_of_cons. by left.
  - case_decide; [done|]. rewrite elem_of_app, list_elem_of_singleton. by right.
  - intros Hnd. case_decide; [done|].
    apply NoDup_app. split; [done|]. split; [|apply NoDup_singleton].
    by intros x Hx ->%list_elem_of_singleton.
Qed.

Lemma collect_channel_detail_frame self items self' :
  collect_channel_detail self items = inr self' →
  _port_speeds self' = _port_speeds self ∧
  _status_resp self' = _status_resp self ∧
  _info_resp self' = _info_resp self ∧
  _transceiver self'
  = _transceiver self ++ unseen (_transceiver self) (transceiver_ids items).
Proof.
  revert self. induction items as [|[port status] items IH]; intros self;
    cbn [collect_channel_detail].
  { intros [= <-]. by rewrite app_nil_r. }
  unfold transceiver_ids. cbn [omap list_omap snd].
  destruct (transceiverIdx status) as [idx|]; cbn [fmap option_fmap option_map];
    [|apply IH].
  destruct (_get_channel_detail self port idx) as [e|self1] eqn:Hstep; [done|].
  apply get_channel_detail_result in Hstep as (c & cs & ->).
  intros (Hs & Hr & Hi & Ht)%IH. revert Hs Hr Hi Ht.
  cbn [with_channel_detail _port_speeds _status_resp _info_resp _transceiver
       unseen].
  intros -> -> -> ->. split_and!; try done.
  case_decide; [done|]. by rewrite <- (assoc_L (++)).
Qed.

(** X2: after the first loop of [get_detail_status] the list of
    transceivers to ask for is the old list followed by the transceiver
    ids of the ports, each once, in the order of its first port; for a
    fresh command object it has no repetitions. *)
Theorem collect_channel_detail_transceivers self items self' :
  collect_channel_detail self items = inr self' →
  _transceiver self'
  = _transceiver self ++ unseen (_transceiver self) (transceiver_ids items) ∧
  (∀ tid, tid ∈ _transceiver self' ↔
          tid ∈ _transceiver self ∨ tid ∈ transceiver_ids items) ∧
  (NoDup (_transceiver self) → NoDup (_transceiver self')).
Proof.
  intros (_ & _ & _ & Ht)%collect_channel_detail_frame. rewrite Ht.
  split_and!; [done| |apply unseen_NoDup].
  intros tid. apply elem_of_unseen.
Qed.

(** X1: the first loop of [get_detail_status] succeeds exactly when every
    port that has a transceiver index and no explicit channel list has an
    entry in the speed table. *)
Theorem collect_channel_detail_ok_iff self items :
  (∃ self', collect_channel_detail self items = inr self') ↔
  Forall (λ kv : Z * PortStatus,
            ∀ idx, transceiverIdx kv.2 = Some idx →
                   list_truthy (channels idx) = true ∨
                   is_Some (_port_speeds self !! kv.1)) items.
Proof.
  revert self. induction items as [|[port status] items IH]; intros self;
    cbn [collect_channel_detail].
  { split; [by constructor|]. intros _. by eexists. }
  rewrite Forall_cons. cbn [fst snd].
  destruct (transceiverIdx status) as [idx|].
  - destruct (_get_channel_detail self port idx) as [e|self1] eqn:Hstep.
    + split; [by intros [? [=]]|]. intros [Hok _].
      destruct (proj2 (get_channel_detail_ok_iff self port idx)
                  (Hok idx eq_refl)) as [self1 Hself1]. congruence.
    + rewrite IH.
      apply get_channel_detail_result in Hstep as Hres.
      destruct Hres as (c & cs & ->).
      cbn [with_channel_detail _port_speeds]. split.
      * intros Hrest. split; [|done]. intros idx' [= <-].
        apply get_channel_detail_ok_iff. by eexists.
      * by intros [_ Hrest].
  - rewrite IH. split; [|by intros [_ ?]]. intros Hrest. by split.
Qed.
End channel_map_facts.

Lemma get_channel_detail_enters_port_witness :
  ∃ self',
    _get_channel_detail (Examples.fresh Examples.four_speeds Examples.four_ports)
      3 (Examples.idx 8 0 None) = inr self' ∧
    (∃ ch, odict.get ch (t_to_p_get (_t_to_p self') 8) = Some 3) ∧
    8 ∈ _transceiver self' ∧
    (NoDup (@nil Z) → NoDup (_transceiver self')).
Proof.
  eexists. split; [reflexivity|].
  apply (get_channel_detail_enters_port
           (Examples.fresh Examples.four_speeds Examples.four_ports)
           3 (Examples.idx 8 0 None)).
  reflexivity.
Defined.

Example collect_four_ports :
  match collect_channel_detail
          (Examples.fresh Examples.four_speeds Examples.four_ports)
          (odict.sorted_items Examples.four_ports) with
  | inr self' =>
      Some (_transceiver self', t_to_p_get (_t_to_p self') 7,
            t_to_p_get (_t_to_p self') 8)
  | inl _ => None
  end
  = Some ([7; 8], [(0, 1); (1, 1); (2, 2); (3, 2)],
          [(0, 3); (1, 3); (2, 3); (3, 3)]).
Proof. vm_compute. reflexivity. Qed.

Lemma collect_channel_detail_transceivers_witness :
  ∃ self',
    collect_channel_detail
      (Examples.fresh Examples.four_speeds Examples.four_ports)
      (odict.sorted_items Examples.four_ports) = inr self' ∧
    _transceiver self'
    = [] ++ unseen [] (transceiver_ids (odict.sorted_items Examples.four_ports)) ∧
    (∀ tid, tid ∈ _transceiver self' ↔
            tid ∈ [] ∨
            tid ∈ transceiver_ids (odict.sorted_items Examples.four_ports)) ∧
    (NoDup (@nil Z) → NoDup (_transceiver self')).
Proof.
  eexists. split; [vm_compute; reflexivity|].
  apply (collect_channel_detail_transceivers
           (Examples.fresh Examples.four_speeds Examples.four_ports)
           (odict.sorted_items Examples.four_ports)).
  vm_compute. reflexivity.
Defined.

Lemma collect_channel_detail_ok_iff_witness :
  ∃ self',
    collect_channel_detail
      (Examples.fresh Examples.four_speeds Examples.four_ports)
      (odict.sorted_items Examples.four_ports) = inr self'.
Proof.
  apply (proj2 (collect_channel_detail_ok_iff
                  (Examples.fresh Examples.four_speeds Examples.four_ports)
                  (odict.sorted_items Examples.four_ports))).
  apply Forall_forall. intros [port status] Hin idx Hidx.
  rewrite sorted_items_perm in Hin. unfold Examples.four_ports in Hin.
  rewrite !elem_of_cons, elem_of_nil in Hin.
  destruct Hin as [[= -> ->]|[[= -> ->]|[[= -> ->]|[[= -> ->]|[]]]]];
    cbn in Hidx; try discriminate; injection Hidx as <-.
  - right. by eexists.
  - right. by eexists.
  - left. reflexivity.
Defined.

(** ** The report: early return, errors, placeholders *)

Section report_facts.
Context {T : TelemetryModel} {S : Type} (qsfp_client : QsfpClient T S).
Implicit Types (self : DetailCmd T) (w : world S).

Lemma collect_channel_detail_unmapped self (items : list (Z * PortStatus)) :
  (∀ kv, kv ∈ items → transceiverIdx kv.2 = None) →
  collect_channel_detail self items = inr self.
Proof.
  induction items as [|[port status] items IH]; intros Hnone;
    cbn [collect_channel_detail]; [done|].
  assert (transceiverIdx status = None) as ->.
  { apply (Hnone (port, status)). rewrite elem_of_cons. by left. }
  apply IH. intros kv Hkv. apply Hnone. rewrite elem_of_cons. by right.
Qed.

(** X4: when no port of the status answer has a transceiver index, a
    fresh command returns at once: no telemetry request, no output, the
    object unchanged. *)
Theorem get_detail_status_no_transceiver self w :
  _transceiver self = [] →
  (∀ kv, kv ∈ _status_resp self → transceiverIdx kv.2 = None) →
  get_detail_status qsfp_client self w = (inr self, w).
Proof.
  intros Hfresh Hnone. unfold get_detail_status.
  rewrite bind_run. cbn [lift].
  rewrite collect_channel_detail_unmapped.
  - by rewrite Hfresh.
  - intros kv Hkv. apply Hnone. by rewrite <- (sorted_items_perm (_status_resp self)).
Qed.

(** X5: an exception of the telemetry request other than
    [TApplicationException] is passed on: the command ends with it, and
    its log holds the request alone. *)
Theorem get_detail_status_passes_on self self1 w (e : exn) :
  collect_channel_detail self (odict.sorted_items (_status_resp self))
  = inr self1 →
  _transceiver self1 ≠ [] →
  (getTransceiverInfo qsfp_client (_transceiver self1) (services w)).1 = inl e →
  e ≠ TApplicationException →
  (get_detail_status qsfp_client self w).1 = inl e ∧
  trace_of (get_detail_status qsfp_client self) w
  = [Rpc (GetTransceiverInfo (_transceiver self1))].
Proof.
  intros Hcollect Hne Hraise Hother.
  assert (∃ s', get_detail_status qsfp_client self w
                = (inl e, World s' (log w ++
                     [Rpc (GetTransceiverInfo (_transceiver self1))])))
    as [s' Hrun].
  { unfold get_detail_status. rewrite bind_run, Hcollect. cbn [lift].
    destruct (_transceiver self1) as [|tid tids] eqn:Htids; [done|].
    rewrite bind_run. unfold try_catch, fmap, M_fmap.
    rewrite bind_run, rpc_run, Hraise. cbn [fst snd].
    rewrite decide_False by done. by eexists. }
  rewrite Hrun. split; [done|]. apply trace_of_appended. by rewrite Hrun.
Qed.

Lemma dummy_fold_complete (items : list (Z * PortStatus))
    (info_resp : gmap Z (TransceiverInfo T)) :
  (∀ kv idx, kv ∈ items → transceiverIdx kv.2 = Some idx →
             transceiverId idx ∈ dom info_resp) →
  foldl (λ info_resp (kv : Z * PortStatus),
           match transceiverIdx kv.2 with
           | Some idx =>
               if decide (transceiverId idx ∈ dom info_resp) then info_resp
               else <[kv.1 := dummy_info kv.1]> info_resp
           | None => info_resp
           end) info_resp items
  = info_resp.
Proof.
  induction items as [|kv items IH]; intros Hall; cbn [foldl]; [done|].
  destruct (transceiverIdx kv.2) as [idx|] eqn:Hidx.
  - rewrite decide_True.
    + apply IH. intros kv' idx' Hin. apply Hall. rewrite elem_of_cons. by right.
    + apply (Hall kv idx); [rewrite elem_of_cons; by left|done].
  - apply IH. intros kv' idx' Hin. apply Hall. rewrite elem_of_cons. by right.
Qed.

(** X6: when the telemetry answer has a record for the transceiver of
    every port, [_get_dummy_status] changes nothing. *)
Theorem get_dummy_status_complete self :
  (∀ kv idx, kv ∈ _status_resp self → transceiverIdx kv.2 = Some idx →
             transceiverId idx ∈ dom (_info_resp self)) →
  _get_dummy_status self = self.
Proof.
  intros Hall. unfold _get_dummy_status. rewrite dummy_fold_complete.
  - by destruct self.
  - intros kv idx Hin. apply Hall.
    by rewrite <- (sorted_items_perm (_status_resp self)).
Qed.

Lemma dummy_fold_frame (items : list (Z * PortStatus))
    (info_resp : gmap Z (TransceiverInfo T)) (k : Z) :
  let after :=
    foldl (λ info_resp (kv : Z * PortStatus),
             match transceiverIdx kv.2 with
             | Some idx =>
                 if decide (transceiverId idx ∈ dom info_resp) then info_resp
                 else <[kv.1 := dummy_info kv.1]> info_resp
             | None => info_resp
             end) info_resp items in
  after !! k = info_resp !! k ∨
  (k ∈ items.*1 ∧ after !! k = Some (dummy_info k)).
Proof.
  revert info_resp. induction items as [|kv items IH]; intros info_resp;
    cbn [foldl]; [by left|].
  set (m1 := match transceiverIdx kv.2 with Some _ => _ | None => _ end).
  destruct (IH m1) as [Hsame|[Hin Hdummy]].
  - rewrite Hsame. subst m1.
    destruct (transceiverIdx kv.2) as [idx|]; [|by left].
    case_decide; [by left|].
    destruct (decide (kv.1 = k)) as [<-|Hne].
    + right. rewrite lookup_insert_eq. split; [|done].
      rewrite fmap_cons, elem_of_cons. by left.
    + left. by rewrite lookup_insert_ne.
  - right. split; [|done]. rewrite fmap_cons, elem_of_cons. by right.
Qed.

(** X7: [_get_dummy_status] touches only the telemetry table, and there
    only keys that are port numbers of the status answer, each of which
    it either leaves alone or sets to the placeholder of that port; no
    key is removed. *)
Theorem get_dummy_status_frame self (k : Z) :
  let self' := _get_dummy_status self in
  (_status_resp self' = _status_resp self ∧
   _t_to_p self' = _t_to_p self ∧
   _transceiver self' = _transceiver self ∧
   _port_speeds self' = _port_speeds self) ∧
  (_info_resp self' !! k = _info_resp self !! k ∨
   (k ∈ odict.keys (_status_resp self) ∧
    _info_resp self' !! k = Some (dummy_info k))) ∧
  (is_Some (_info_resp self !! k) → is_Some (_info_resp self' !! k)).
Proof.
  intros self'. split; [done|].
  assert (_info_resp self' !! k = _info_resp self !! k ∨
          (k ∈ odict.keys (_status_resp self) ∧
           _info_resp self' !! k = Some (dummy_info k))) as Hframe.
  { subst self'. unfold _get_dummy_status. cbn [with_info_resp _info_resp].
    destruct (dummy_fold_frame (odict.sorted_items (_status_resp self))
                (_info_resp self) k) as [?|[Hin ?]]; [by left|].
    right. split; [|done]. unfold odict.keys.
    by rewrite <- (sorted_items_perm (_status_resp self)). }
  split; [done|].
  destruct Hframe as [->|[_ ->]]; [done|]. by eexists.
Qed.

(** When all ports have a transceiver index, the loop of
    [_print_port_detail] is the sequence of [_print_transceiver_details]
    over the transceiver ids not printed before, each at its first
    port. *)
Lemma print_port_detail_loop_unseen self (items : list (Z * PortStatus))
    (transceiver_printed : list Z) w :
  (∀ kv, kv ∈ items → is_Some (transceiverIdx kv.2)) →
  print_port_detail_loop self items transceiver_printed w
  = for_each (unseen transceiver_printed (transceiver_ids items))
      (_print_transceiver_details self) w.
Proof.
  revert transceiver_printed w.
  induction items as [|[port status] items IH]; intros printed w Hall;
    cbn [print_port_detail_loop]; [done|].
  destruct (Hall (port, status)) as [idx Hidx]; [rewrite elem_of_cons; by left|].
  cbn [snd] in Hidx. unfold transceiver_ids. cbn [omap list_omap snd].
  rewrite Hidx. cbn [fmap option_fmap option_map unseen].
  fold (transceiver_ids items).
  assert (∀ kv, kv ∈ items → is_Some (transceiverIdx kv.2)) as Hrest.
  { intros kv Hkv. apply Hall. rewrite elem_of_cons. by right. }
  rewrite bind_run. destruct (decide (transceiverId idx ∈ printed)) as [Hin|Hnin].
  - rewrite bool_decide_eq_false_2 by (by intros ?). cbn [when mret M_ret].
    rewrite IH by done. f_equal. apply unseen_ext. intros x.
    rewrite elem_of_app, list_elem_of_singleton. split; [|by left].
    by intros [?| ->].
  - rewrite bool_decide_eq_true_2 by done. cbn [when for_each].
    rewrite bind_run.
    destruct (_print_transceiver_details self (transceiverId idx) w)
      as [[e|[]] w1]; [done|]. by apply IH.
Qed.

(** X9: a port without a transceiver index ends [_print_port_detail] with
    [KeyError], the lookup [self._info_resp[None]], as soon as the loop
    reaches it; nothing is printed for it. *)
Theorem print_port_detail_unmapped_port self (port : Z) (status : PortStatus)
    (items : list (Z * PortStatus)) (transceiver_printed : list Z) w :
  transceiverIdx status = None →
  print_port_detail_loop self ((port, status) :: items) transceiver_printed w
  = (inl KeyError, w).
Proof.
  intros Hnone. cbn [print_port_detail_loop]. rewrite Hnone, bind_run.
  unfold status_of. by destruct (odict.get port (_status_resp self)).
Qed.

Lemma print_transceiver_ports_run self (ports : list Z) (is_present : bool) w :
  (∀ port, port ∈ ports → is_Some (odict.get port (_status_resp self))) →
  for_each ports (λ port,
    status ← status_of self port;
    print (port_line port (get_status_strs status (Some is_present)))) w
  = (inr tt,
     World (services w)
       (log w ++ omap (λ port,
                   (λ status, Print (port_line port
                                (get_status_strs status (Some is_present))))
                   <$> odict.get port (_status_resp self)) ports)).
Proof.
  revert w. induction ports as [|port ports IH]; intros w Hknown;
    cbn [for_each omap list_omap].
  - rewrite app_nil_r. by destruct w.
  - destruct (Hknown port) as [status Hstatus]; [rewrite elem_of_cons; by left|].
    rewrite !bind_run. unfold status_of at 1. rewrite Hstatus.
    cbn [mret M_ret print emit fmap option_fmap option_map].
    rewrite IH.
    + cbn [services log]. by rewrite <- (assoc_L (++)).
    + intros p Hp. apply Hknown. rewrite elem_of_cons. by right.
Qed.

(** X10: a transceiver whose record says absent is reported with one
    line per channel its ports hold in the map (a port on several
    channels appears once per channel), each made from the port's status
    and the presence value [False], and nothing else. *)
Theorem absent_transceiver_lines self (tid : Z) (info : TransceiverInfo T) w :
  _info_resp self !! tid = Some info →
  present info = false →
  let ports := odict.values (t_to_p_get (_t_to_p self) tid) in
  (∀ port, port ∈ ports → is_Some (odict.get port (_status_resp self))) →
  let lines :=
    omap (λ port,
            (λ status, Print (port_line port (get_status_strs status (Some false))))
            <$> odict.get port (_status_resp self)) ports in
  _print_transceiver_details self tid w
  = (inr tt, World (services w) (log w ++ lines)) ∧
  length lines = length (t_to_p_get (_t_to_p self) tid).
Proof.
  intros Hinfo Habsent ports Hknown lines. split.
  - unfold _print_transceiver_details. rewrite Hinfo, Habsent. cbn [negb].
    unfold _print_transceiver_ports. rewrite Habsent.
    by apply print_transceiver_ports_run.
  - subst lines ports. unfold odict.values in *.
    induction (t_to_p_get (_t_to_p self) tid) as [|[ch port] l IH];
      cbn [omap list_omap fmap list_fmap snd length]; [done|].
    destruct (Hknown port) as [status ->].
    { rewrite fmap_cons, elem_of_cons. by left. }
    cbn [fmap option_fmap option_map length]. f_equal. apply IH.
    intros p Hp. apply Hknown. rewrite fmap_cons, elem_of_cons. by right.
Qed.

(** X8: the report follows the request.  For a fresh command whose ports
    all have a transceiver index, [_print_port_detail] goes through
    exactly the transceivers that were asked of the telemetry service, in
    the order of the request, each once. *)
Theorem print_port_detail_once self self1
    (info_resp : gmap Z (TransceiverInfo T)) w :
  _transceiver self = [] →
  collect_channel_detail self (odict.sorted_items (_status_resp self))
  = inr self1 →
  (∀ kv, kv ∈ _status_resp self → is_Some (transceiverIdx kv.2)) →
  let self2 := _get_dummy_status (with_info_resp self1 info_resp) in
  _print_port_detail self2 w
  = for_each (_transceiver self1) (_print_transceiver_details self2) w ∧
  NoDup (_transceiver self1).
Proof.
  intros Hfresh Hcollect Hall self2.
  apply collect_channel_detail_frame in Hcollect as (_ & Hstatus & _ & Htids).
  rewrite Hfresh in Htids. cbn [app] in Htids. rewrite Htids. split.
  - unfold _print_port_detail.
    change (_status_resp self2) with (_status_resp self1). rewrite Hstatus.
    apply print_port_detail_loop_unseen. intros kv Hkv. apply Hall.
    by rewrite <- (sorted_items_perm (_status_resp self)).
  - apply (unseen_NoDup []), NoDup_nil_2.
Qed.

(** X22: an empty cage whose transceiver id is not the number of a port
    of the status answer: after [_get_dummy_status] the telemetry table
    still has no record under that id, and [_print_transceiver_details]
    ends with [KeyError] without output. *)
Theorem empty_cage_key_error self (tid : Z) w :
  _info_resp self !! tid = None →
  tid ∉ odict.keys (_status_resp self) →
  _info_resp (_get_dummy_status self) !! tid = None ∧
  _print_transceiver_details (_get_dummy_status self) tid w = (inl KeyError, w).
Proof.
  intros Hnone Hkey.
  assert (_info_resp (_get_dummy_status self) !! tid = None) as Hstill.
  { unfold _get_dummy_status. cbn [with_info_resp _info_resp].
    destruct (dummy_fold_frame (odict.sorted_items (_status_resp self))
                (_info_resp self) tid) as [->|[Hin _]]; [done|].
    exfalso. apply Hkey. unfold odict.keys.
    by rewrite <- (sorted_items_perm (_status_resp self)). }
  split; [done|]. unfold _print_transceiver_details. by rewrite Hstill.
Qed.
End report_facts.

Lemma get_detail_status_no_transceiver_witness :
  get_detail_status Mock.qsfp
    (Examples.fresh [] [(9, Mock.status false None)])
    (Mock.start Mock.three_ports)
  = (inr (Examples.fresh [] [(9, Mock.status false None)]),
     Mock.start Mock.three_ports).
Proof.
  apply (get_detail_status_no_transceiver Mock.qsfp
           (Examples.fresh [] [(9, Mock.status false None)])
           (Mock.start Mock.three_ports)).
  - reflexivity.
  - intros kv ->%list_elem_of_singleton. reflexivity.
Defined.

Lemma get_detail_status_passes_on_witness :
  let self := Examples.fresh [(5, Some 10000)]
                (Mock.statuses (Mock.one_port 5 (inl FbossBaseError))) in
  let w := Mock.start (Mock.one_port 5 (inl FbossBaseError)) in
  (get_detail_status Mock.qsfp self w).1 = inl FbossBaseError ∧
  trace_of (get_detail_status Mock.qsfp self) w = [Rpc (GetTransceiverInfo [4])].
Proof.
  intros self w.
  apply (get_detail_status_passes_on Mock.qsfp self
           (with_channel_detail self (assign_channels 4 5 [0] ∅) [4])
           w FbossBaseError).
  - vm_compute. reflexivity.
  - discriminate.
  - reflexivity.
  - discriminate.
Defined.

Lemma get_dummy_status_complete_witness :
  _get_dummy_status Examples.caged = Examples.caged.
Proof.
  apply (get_dummy_status_complete Examples.caged).
  intros kv idx ->%list_elem_of_singleton [= <-].
  apply elem_of_dom. by eexists.
Defined.

Lemma get_dummy_status_frame_witness :
  is_Some (_info_resp (_get_dummy_status Examples.caged) !! 4).
Proof.
  apply (proj2 (proj2 (get_dummy_status_frame Examples.caged 4))).
  by eexists.
Defined.

Lemma print_port_detail_once_witness :
  let self := Examples.fresh Examples.four_speeds
                [(3, Mock.status true (Some (Examples.idx 8 0 None)));
                 (1, Mock.status true (Some (Examples.idx 7 0 None)));
                 (2, Mock.status false (Some (Examples.idx 7 2 (Some [2; 3]))))] in
  let self1 :=
    with_channel_detail self
      {[ 7 := [(0, 1); (1, 1); (2, 2); (3, 2)];
         8 := [(0, 3); (1, 3); (2, 3); (3, 3)] ]} [7; 8] in
  let self2 :=
    _get_dummy_status
      (with_info_resp self1 {[ 7 := Examples.absent 7; 8 := Examples.absent 8 ]}) in
  _print_port_detail self2 (Mock.start Mock.three_ports)
  = for_each [7; 8] (_print_transceiver_details self2)
      (Mock.start Mock.three_ports) ∧
  NoDup [7; 8].
Proof.
  intros self self1.
  apply (print_port_detail_once self self1
           {[ 7 := Examples.absent 7; 8 := Examples.absent 8 ]}
           (Mock.start Mock.three_ports)).
  - reflexivity.
  - vm_compute. reflexivity.
  - intros kv Hkv. subst self. cbn [Examples.fresh _status_resp] in Hkv.
    rewrite !elem_of_cons, elem_of_nil in Hkv.
    destruct Hkv as [->|[->|[->|[]]]]; by eexists.
Defined.

Lemma empty_cage_key_error_witness :
  let self := with_info_resp
                (Examples.fresh [(5, Some 10000)]
                   (Mock.statuses Mock.empty_cage)) ∅ in
  _info_resp (_get_dummy_status self) !! 4 = None ∧
  _print_transceiver_details (_get_dummy_status self) 4
    (Mock.start Mock.empty_cage)
  = (inl KeyError, Mock.start Mock.empty_cage).
Proof.
  intros self.
  apply (empty_cage_key_error self 4 (Mock.start Mock.empty_cage)).
  - reflexivity.
  - intros Hin%list_elem_of_singleton. discriminate.
Defined.

Lemma print_port_detail_unmapped_port_witness :
  print_port_detail_loop
    (Examples.fresh Examples.four_speeds Examples.four_ports)
    [(9, Mock.status false None)] [] (Mock.start Mock.three_ports)
  = (inl KeyError, Mock.start Mock.three_ports).
Proof.
  apply (print_port_detail_unmapped_port
           (Examples.fresh Examples.four_speeds Examples.four_ports)
           9 (Mock.status false None) [] [] (Mock.start Mock.three_ports)).
  reflexivity.
Defined.

Lemma absent_transceiver_lines_witness :
  let ports := odict.values (t_to_p_get (_t_to_p Examples.caged) 4) in
  let lines :=
    omap (λ port,
            (λ status, Print (port_line port (get_status_strs status (Some false))))
            <$> odict.get port (_status_resp Examples.caged)) ports in
  _print_transceiver_details Examples.caged 4 (Mock.start Mock.three_ports)
  = (inr tt, World Mock.three_ports ([] ++ lines)) ∧
  length lines = length (t_to_p_get (_t_to_p Examples.caged) 4).
Proof.
  apply (absent_transceiver_lines Examples.caged 4 (Examples.absent 4)
           (Mock.start Mock.three_ports)).
  - reflexivity.
  - reflexivity.
  - intros port Hport. vm_compute in Hport.
    change (port ∈ [4; 4; 4; 4]) in Hport.
    rewrite !elem_of_cons, elem_of_nil in Hport.
    destruct Hport as [->|[->|[->|[->|[]]]]]; by eexists.
Defined.

Example absent_40g_port_four_lines :
  trace_of (_print_transceiver_details Examples.caged 4)
    (Mock.start Mock.three_ports)
  = replicate 4
      (Print "Port:  4  Status: Enabled   Link: Up    Transceiver: Absent").
Proof. vm_compute. reflexivity. Qed.

(** ** The details command: edge cases, errors, speed text *)

Lemma format_0f_whole (n k : Z) :
  0 < k → format_0f (inject_Z (n * k) / inject_Z k) = pretty n.
Proof.
  intros Hk. destruct k as [|k|k]; try lia.
  unfold format_0f. cbn [Qdiv Qmult Qinv inject_Z Qnum Qden].
  rewrite Z.mul_1_r, Pos.mul_1_l, Z.div_mul, Z.mod_mul by lia.
  by rewrite decide_True by lia.
Qed.

Lemma filter_none {A} (P : A → Prop) `{∀ x, Decision (P x)} (l : list A) :
  (∀ x, x ∈ l → ¬ P x) → filter P l = [].
Proof.
  induction l as [|x l IH]; intros Hnone; [done|].
  rewrite filter_cons_False by (apply Hnone; rewrite elem_of_cons; by left).
  apply IH. intros y Hy. apply Hnone. rewrite elem_of_cons. by right.
Qed.

Section details_more.
Context {S : Type} (client : AgentClient S).
Context (port_sort_le : PortInfo → PortInfo → bool).

(** X11: the two empty listings of the details command: an empty answer
    to the all-ports request prints "No Ports Found"; an answer whose
    ports are all down ([operState] other than 1) prints nothing at
    all. *)
Theorem details_empty_listings (w : world S) (resp : list (Z * PortInfo))
    (s1 : S) :
  getAllPortInfo client (services w) = (inr resp, s1) →
  (∀ info, info ∈ odict.values resp → operState info ≠ 1) →
  (PortDetailsCmd_run client port_sort_le [] w).1 = inr tt ∧
  trace_of (PortDetailsCmd_run client port_sort_le []) w
  = Rpc GetAllPortInfo
    :: match resp with [] => [Print "No Ports Found"] | _ => [] end.
Proof.
  intros Hresp Hdown.
  assert (filter (λ info, operState info = 1)
            (sorted_by port_sort_le (odict.values resp)) = []) as Hnone.
  { apply filter_none. intros info Hin.
    apply Hdown. by rewrite <- (sorted_by_perm port_sort_le). }
  assert (PortDetailsCmd_run client port_sort_le [] w
          = (inr tt, World s1 (log w ++ Rpc GetAllPortInfo
               :: match resp with [] => [Print "No Ports Found"] | _ => [] end)))
    as Hrun.
  { unfold PortDetailsCmd_run. rewrite bind_run.
    unfold try_catch, fmap, M_fmap. rewrite bind_run, rpc_run, Hresp.
    cbn [fst snd mret M_ret].
    destruct resp as [|kv resp].
    - unfold print, emit. cbn [services log]. by rewrite <- (assoc_L (++)).
    - rewrite Hnone. done. }
  rewrite Hrun. split; [done|]. apply trace_of_appended. by rewrite Hrun.
Qed.

(** X12: errors of the details command.  When the all-ports request
    raises, whatever the exception, the command ends with [TypeError]
    (the handler's [str + exception]) after that one call; when the
    request for the first port named on the command line raises, the
    command ends with that exception, unchanged, after that one call. *)
Theorem details_errors (w : world S) (e : exn) :
  ((getAllPortInfo client (services w)).1 = inl e →
   (PortDetailsCmd_run client port_sort_le [] w).1 = inl TypeError ∧
   trace_of (PortDetailsCmd_run client port_sort_le []) w
   = [Rpc GetAllPortInfo]) ∧
  (∀ port ports,
     (getPortInfo client port (services w)).1 = inl e →
     (PortDetailsCmd_run client port_sort_le (port :: ports) w).1 = inl e ∧
     trace_of (PortDetailsCmd_run client port_sort_le (port :: ports)) w
     = [Rpc (GetPortInfo port)]).
Proof.
  split.
  - intros Hraise.
    assert (∃ s', PortDetailsCmd_run client port_sort_le [] w
                  = (inl TypeError, World s' (log w ++ [Rpc GetAllPortInfo])))
      as [s' Hrun].
    { unfold PortDetailsCmd_run. rewrite bind_run.
      unfold try_catch, fmap, M_fmap. rewrite bind_run, rpc_run, Hraise.
      by eexists. }
    rewrite Hrun. split; [done|]. apply trace_of_appended. by rewrite Hrun.
  - intros port ports Hraise.
    assert (∃ s', PortDetailsCmd_run client port_sort_le (port :: ports) w
                  = (inl e, World s' (log w ++ [Rpc (GetPortInfo port)])))
      as [s' Hrun].
    { unfold PortDetailsCmd_run. rewrite bind_run. unfold try_catch.
      cbn [mret M_ret for_each]. rewrite bind_run.
      unfold _print_port_details. rewrite bind_run, rpc_run, Hraise.
      by eexists. }
    rewrite Hrun. split; [done|]. apply trace_of_appended. by rewrite Hrun.
Qed.
End details_more.

(** X13: the speed line of the details.  A speed of [n] Mbps with
    [1 <= n < 1000] is printed as "n Mbps", a speed of [1000 * n] Mbps as
    "n Gbps", and an unset speed makes the command raise [TypeError];
    the other lines do not depend on the speed. *)
Theorem port_details_speed_line (info : PortInfo) (n : Z) :
  1 ≤ n < 1000 →
  let text (speed : string) :=
    [""; join newline
           ((λ l : string * string, ljust 50 dot l.1 +:+ l.2) <$>
              [("Name", strip (name info));
               ("Port ID", pretty (portId info));
               ("Admin State",
                if decide (adminState info = 0) then "DISABLED" else "ENABLED");
               ("Link State",
                if decide (operState info = 0) then "DOWN" else "UP");
               ("Speed", speed);
               ("VLANs", join " " (pretty <$> default [] (vlans info)));
               ("Forward Error Correction",
                match fecEnabled info with
                | None => "N/A"
                | Some true => "ENABLED"
                | Some false => "DISABLED"
                end)]);
         ljust 20 dot "Description" +:+ default "" (description info)] in
  (speedMbps info = Some n →
   port_details_text info = inr (text (pretty n +:+ " Mbps"))) ∧
  (speedMbps info = Some (1000 * n) →
   port_details_text info = inr (text (pretty n +:+ " Gbps"))) ∧
  (speedMbps info = None → port_details_text info = inl TypeError).
Proof.
  intros Hn text. unfold port_details_text. split_and!; intros ->.
  - rewrite convert_bps_cases.
    rewrite decide_False, decide_False, decide_True by lia.
    by rewrite format_0f_whole.
  - replace (1000 * n * 10 ^ 6) with (n * 10 ^ 9) by lia.
    rewrite convert_bps_cases.
    rewrite decide_False, decide_False, decide_False, decide_True by lia.
    by rewrite format_0f_whole.
  - done.
Qed.

Lemma details_empty_listings_witness :
  let w := Mock.start
             {| Mock.statuses := []; Mock.infos := [(1, Mock.info 1 0 10000)];
                Mock.telemetry := inr ∅ |} in
  (PortDetailsCmd_run Mock.agent Mock.by_port_id [] w).1 = inr tt ∧
  trace_of (PortDetailsCmd_run Mock.agent Mock.by_port_id []) w
  = [Rpc GetAllPortInfo].
Proof.
  intros w.
  apply (details_empty_listings Mock.agent Mock.by_port_id w
           [(1, Mock.info 1 0 10000)] (services w)).
  - reflexivity.
  - intros info ->%list_elem_of_singleton. discriminate.
Defined.

Lemma details_errors_witness :
  (PortDetailsCmd_run Mock.agent Mock.by_port_id [8; 2]
     (Mock.start Mock.three_ports)).1 = inl FbossBaseError ∧
  trace_of (PortDetailsCmd_run Mock.agent Mock.by_port_id [8; 2])
    (Mock.start Mock.three_ports)
  = [Rpc (GetPortInfo 8)].
Proof.
  apply (proj2 (details_errors Mock.agent Mock.by_port_id
                  (Mock.start Mock.three_ports) FbossBaseError) 8 [2]).
  reflexivity.
Defined.

Lemma port_details_speed_line_witness :
  ∃ text, port_details_text (Mock.info 3 1 100000) = inr text ∧
          text !! 1%nat
          = Some (join newline
                    ["Name..............................................eth1/3/1";
                     "Port ID...........................................3";
                     "Admin State.......................................ENABLED";
                     "Link State........................................UP";
                     "Speed.............................................100 Gbps";
                     "VLANs.............................................2003";
                     "Forward Error Correction..........................N/A"]).
Proof.
  eexists. split.
  - apply (proj1 (proj2 (port_details_speed_line (Mock.info 3 1 100000) 100
                           ltac:(lia)))).
    reflexivity.
  - reflexivity.
Defined.

(** ** Failing runs of the state-changing commands *)

Section failing_runs.
Context {S : Type}.
Implicit Types (w : world S).

(** A loop whose rounds log their events whether they succeed or not: the
    log is that of the rounds up to the one that raised. *)
Lemma for_each_cut {A} (xs : list A) (body : A → M S unit)
    (evs : A → list event) w :
  (∀ x w, x ∈ xs → log (body x w).2 = log w ++ evs x) →
  ∃ n, (n ≤ length xs)%nat ∧
       log (for_each xs body w).2 = log w ++ flat_map evs (take n xs) ∧
       match (for_each xs body w).1 with
       | inr _ => n = length xs
       | inl _ => (0 < n)%nat
       end.
Proof.
  revert w. induction xs as [|x xs IH]; intros w Hbody; cbn [for_each].
  - exists 0%nat. cbn. by rewrite app_nil_r.
  - rewrite bind_run.
    pose proof (Hbody x w (proj2 (elem_of_cons xs x x) (or_introl eq_refl)))
      as Hx.
    destruct (body x w) as [[e|[]] w1]; cbn [snd] in Hx.
    + exists 1%nat. cbn [length take flat_map fst snd].
      rewrite app_nil_r. split; [lia|]. split; [done|lia].
    + destruct (IH w1) as (n & Hn & Hlog & Hres).
      { intros y w' Hy. apply Hbody. rewrite elem_of_cons. by right. }
      exists (Datatypes.S n). cbn [length take flat_map].
      split; [lia|]. split.
      * by rewrite Hlog, Hx, (assoc_L (++)).
      * destruct (for_each xs body w1).1; lia.
Qed.

Lemma for_each_raises {A} (xs : list A) (body : A → M S unit) (x : A) w :
  x ∈ xs → (∀ w, ∃ e, (body x w).1 = inl e) →
  ∃ e, (for_each xs body w).1 = inl e.
Proof.
  intros Hin Hraise. revert w.
  induction xs as [|y xs IH]; intros w; [by apply elem_of_nil in Hin|].
  cbn [for_each]. rewrite bind_run.
  apply elem_of_cons in Hin as [<-|Hin].
  - destruct (Hraise w) as [e He]. destruct (body x w) as [[e'|[]] w1]; by eauto.
  - destruct (body y w) as [[e'|[]] w1]; [by eauto|]. by apply IH.
Qed.

Context (client : AgentClient S).

Lemma set_status_round_log (status : bool) (port : Z) w :
  log ((print ((if status then "Enabling" else "Disabling")
               +:+ " port " +:+ pretty port);;
        rpc (SetPortState port status) (setPortState client port status)) w).2
  = log w ++ set_status_events status port.
Proof.
  rewrite bind_run. cbn [print emit]. rewrite rpc_run. cbn [snd log].
  by rewrite <- (assoc_L (++)).
Qed.

Lemma for_each_app_run {A} (l1 l2 : list A) (body : A → M S unit) w :
  for_each (l1 ++ l2) body w
  = match for_each l1 body w with
    | (inl e, w') => (inl e, w')
    | (inr _, w') => for_each l2 body w'
    end.
Proof.
  revert w. induction l1 as [|x l1 IH]; intros w; cbn [app for_each]; [done|].
  rewrite !bind_run. destruct (body x w) as [[e|[]] w1]; [done|]. apply IH.
Qed.

(** X14: the log of [set_status] is the notice and call of the ports
    given, in order, cut after some port, and a run that returns has gone
    through all ports; when the calls for the ports before some port
    succeed and the call for that port raises, the command ends with that
    exception and the log is cut right after that call: no port after it
    is touched. *)
Theorem set_status_log_cut (ports : list Z) (status : bool) w :
  (∃ n, (n ≤ length ports)%nat ∧
        trace_of (set_status client ports status) w
        = flat_map (set_status_events status) (take n ports) ∧
        match (set_status client ports status w).1 with
        | inr _ => n = length ports
        | inl _ => (0 < n)%nat
        end) ∧
  (∀ before port after e,
     ports = before ++ port :: after →
     (∀ q s, q ∈ before → (setPortState client q status s).1 = inr tt) →
     (∀ s, (setPortState client port status s).1 = inl e) →
     (set_status client ports status w).1 = inl e ∧
     trace_of (set_status client ports status) w
     = flat_map (set_status_events status) (before ++ [port])).
Proof.
  set (body := λ port : Z,
         print ((if status then "Enabling" else "Disabling")
                +:+ " port " +:+ pretty port);;
         rpc (SetPortState port status) (setPortState client port status)).
  split.
  - destruct (for_each_cut ports body (set_status_events status) w)
      as (n & Hn & Hlog & Hres).
    { intros port w' _. apply set_status_round_log. }
    exists n. split; [done|]. split; [|done]. by apply trace_of_appended.
  - intros before port after e -> Hbefore Hraise.
    assert (∃ s', set_status client (before ++ port :: after) status w
                  = (inl e, World s' (log w ++ flat_map (set_status_events status)
                                                 (before ++ [port]))))
      as [s' Hrun].
    { unfold set_status. fold body. rewrite for_each_app_run.
      destruct (for_each_ok before body (set_status_events status)) with (w := w)
        as [s1 ->].
      { intros q w' Hq. subst body. cbn beta. rewrite bind_run.
        cbn [print emit]. rewrite rpc_run, Hbefore by done.
        eexists. cbn [fst snd services log]. by rewrite <- (assoc_L (++)). }
      cbn [for_each]. rewrite bind_run. subst body. cbn beta.
      rewrite bind_run. cbn [print emit]. rewrite rpc_run, Hraise.
      eexists. cbn [fst snd services log].
      rewrite flat_map_app. cbn [flat_map set_status_events].
      by rewrite app_nil_r, <- !(assoc_L (++)). }
    rewrite Hrun. split; [done|]. apply trace_of_appended. by rewrite Hrun.
Qed.

(** X15: when the agent refuses to disable one of the enabled ports, the
    flap ends with an exception in its first loop: there is no pause and
    no [setPortState(port, True)] call, so the ports disabled before the
    refusal stay disabled. *)
Theorem flap_refused_disable_enables_nothing (ports : list Z) w
    (resp : list (Z * PortStatus)) (s1 : S) (port : Z) (status : PortStatus) :
  getPortStatus client ports (services w) = (inr resp, s1) →
  (port, status) ∈ resp → enabled status = true →
  (∀ s, ∃ e, (setPortState client port false s).1 = inl e) →
  (∃ e, (flap_ports client ports w).1 = inl e) ∧
  ∀ ev, ev ∈ trace_of (flap_ports client ports) w →
        (∀ n, ev ≠ Sleep n) ∧ (∀ q, ev ≠ Rpc (SetPortState q true)).
Proof.
  intros Hresp Hin Hon Hrefuse.
  set (w1 := World s1 (log w ++ [Rpc (GetPortStatus ports)])).
  destruct (for_each_raises resp (flap_disable client) (port, status) w1 Hin)
    as [e He].
  { intros w'. unfold flap_disable. rewrite Hon, bind_run. cbn [print emit].
    rewrite rpc_run. cbn [fst]. apply Hrefuse. }
  destruct (emits_for_each disable_phase resp (flap_disable client)
              (λ kv _, flap_disable_emits client kv) w1) as (dis & Hdis & HPdis).
  assert (flap_ports client ports w
          = (inl e, (for_each resp (flap_disable client) w1).2)) as Hrun.
  { unfold flap_ports. rewrite bind_run, rpc_run, Hresp. cbn [fst snd].
    fold w1. rewrite bind_run.
    destruct (for_each resp (flap_disable client) w1) as [[e'|[]] w2];
      cbn [fst] in He; by simplify_eq. }
  split; [exists e; by rewrite Hrun|].
  intros ev.
  rewrite (trace_of_appended _ w (Rpc (GetPortStatus ports) :: dis)).
  2: { rewrite Hrun. cbn [snd]. rewrite Hdis. cbn [log w1].
       by rewrite <- (assoc_L (++)). }
  rewrite elem_of_cons. intros [->|Hev]; [done|].
  rewrite Forall_forall in HPdis. specialize (HPdis ev Hev).
  destruct ev as [text|n|[| | |q [|]|]]; try done.
Qed.

Lemma fboss_handler_run {A} (m : M S A) w :
  let run :=
    try_catch m (λ e, if decide (e = FbossBaseError) then raise TypeError
                      else raise e) in
  (run w).1 ≠ inl FbossBaseError ∧
  ((m w).1 = inl FbossBaseError → (run w).1 = inl TypeError) ∧
  (run w).2 = (m w).2.
Proof.
  intros run. subst run. unfold try_catch.
  destruct (m w) as [[e|a] w1]; cbn [fst snd]; [|by split_and!].
  unfold raise. case_decide as He; cbn [fst snd].
  - split_and!; done.
  - split_and!; [by intros [= ->]| |done]. intros [= ->]. done.
Qed.

Lemma fboss_handler_other {A} (m : M S A) w :
  (m w).1 ≠ inl FbossBaseError →
  (try_catch m (λ e, if decide (e = FbossBaseError) then raise TypeError
                     else raise e) w).1 = (m w).1.
Proof.
  unfold try_catch. destruct (m w) as [[e|a] w1]; cbn [fst]; [|done].
  intros Hother. rewrite decide_False; [done|]. by intros ->.
Qed.

(** X16: the [run] methods of the flap, set-status and stats commands
    never end with [FbossBaseError]: when the operation they wrap raises
    it, the handler's [str + exception] makes the command end with
    [TypeError] instead; any other outcome of the operation is the
    outcome of the command, and so are its log and the state it leaves.
    The flap command wraps [flap_ports], or the one message it prints
    when no port is named. *)
Theorem run_never_fboss_error (ctrl : CtrlClient S) (ports : list Z)
    (status details : bool) w :
  let wraps (run op : M S unit) : Prop :=
    (run w).1 ≠ inl FbossBaseError ∧
    ((op w).1 = inl FbossBaseError → (run w).1 = inl TypeError) ∧
    ((op w).1 ≠ inl FbossBaseError → (run w).1 = (op w).1) ∧
    (run w).2 = (op w).2 in
  wraps (PortFlapCmd_run client ports)
        (match ports with
         | [] => print "Hmm, how did we get here?"
         | _ :: _ => flap_ports client ports
         end) ∧
  wraps (PortSetStatusCmd_run client ports status)
        (set_status client ports status) ∧
  wraps (PortStatsCmd_run ctrl details ports)
        (show_stats ctrl details ports).
Proof.
  intros wraps. subst wraps. cbn beta.
  unfold PortFlapCmd_run, PortSetStatusCmd_run, PortStatsCmd_run.
  split_and!; try apply fboss_handler_run; apply fboss_handler_other.
Qed.
End failing_runs.

Example set_status_stops_at_refusal :
  trace_of (set_status Examples.stubborn [2; 1; 3] false)
    (Mock.start Mock.three_ports)
  = [Print "Disabling port 2"; Rpc (SetPortState 2 false);
     Print "Disabling port 1"; Rpc (SetPortState 1 false)].
Proof. reflexivity. Qed.

Lemma set_status_log_cut_witness :
  (set_status Examples.stubborn [2; 1; 3] false
     (Mock.start Mock.three_ports)).1 = inl FbossBaseError ∧
  trace_of (set_status Examples.stubborn [2; 1; 3] false)
    (Mock.start Mock.three_ports)
  = flat_map (set_status_events false) ([2] ++ [1]).
Proof.
  apply (proj2 (set_status_log_cut Examples.stubborn [2; 1; 3] false
                  (Mock.start Mock.three_ports))
           [2] 1 [3] FbossBaseError).
  - reflexivity.
  - intros q s ->%list_elem_of_singleton. reflexivity.
  - intros s. reflexivity.
Defined.

Lemma flap_refused_disable_enables_nothing_witness :
  (∃ e, (flap_ports Examples.stubborn [2; 1; 3]
           (Mock.start Mock.three_ports)).1 = inl e) ∧
  ∀ ev, ev ∈ trace_of (flap_ports Examples.stubborn [2; 1; 3])
               (Mock.start Mock.three_ports) →
        (∀ n, ev ≠ Sleep n) ∧ (∀ q, ev ≠ Rpc (SetPortState q true)).
Proof.
  apply (flap_refused_disable_enables_nothing Examples.stubborn [2; 1; 3]
           (Mock.start Mock.three_ports)
           (Mock.statuses Mock.three_ports) Mock.three_ports
           1 (Mock.status true None)).
  - reflexivity.
  - unfold Mock.three_ports, Mock.statuses. rewrite !elem_of_cons. auto.
  - reflexivity.
  - intros s. exists FbossBaseError. reflexivity.
Defined.

Example flap_refused_leaves_port_disabled :
  trace_of (flap_ports Examples.stubborn [2; 1; 3])
    (Mock.start Mock.three_ports)
  = [Rpc (GetPortStatus [2; 1; 3]);
     Print "Disabling port 2"; Rpc (SetPortState 2 false);
     Print "Disabling port 1"; Rpc (SetPortState 1 false)] ∧
  enabled <$> odict.get 2
    (Mock.statuses (services (flap_ports Examples.stubborn [2; 1; 3]
                                (Mock.start Mock.three_ports)).2))
  = Some false.
Proof. split; reflexivity. Qed.

Lemma run_never_fboss_error_witness :
  (PortFlapCmd_run Examples.stubborn [2; 1; 3]
     (Mock.start Mock.three_ports)).1 = inl TypeError ∧
  (PortSetStatusCmd_run Examples.stubborn [1] false
     (Mock.start Mock.three_ports)).1 = inl TypeError.
Proof.
  pose proof (run_never_fboss_error Examples.stubborn (S := Mock.state)
                {| getAllPortStats := λ s, (inr [], s);
                   getPortStats := λ _ s, (inl FbossBaseError, s);
                   getLldpNeighbors := λ s, (inr [], s) |}
                [2; 1; 3] false false (Mock.start Mock.three_ports))
    as ((_ & Hflap & _) & _).
  pose proof (run_never_fboss_error Examples.stubborn (S := Mock.state)
                {| getAllPortStats := λ s, (inr [], s);
                   getPortStats := λ _ s, (inl FbossBaseError, s);
                   getLldpNeighbors := λ s, (inr [], s) |}
                [1] false false (Mock.start Mock.three_ports))
    as (_ & (_ & Hset & _) & _).
  split; [apply Hflap | apply Hset]; reflexivity.
Defined.

(** ** The stats command *)

Lemma collect_neighbors_lookup (ns : list LinkNeighbor)
    (n2ports : gmap Z (list LinkNeighbor)) (port : Z) :
  default []
    (foldl (λ n2ports neighbor,
              <[localPort neighbor :=
                  default [] (n2ports !! localPort neighbor) ++ [neighbor]]>
                n2ports) n2ports ns !! port)
  = default [] (n2ports !! port) ++ filter (λ n, localPort n = port) ns.
Proof.
  revert n2ports. induction ns as [|n ns IH]; intros n2ports; cbn [foldl].
  - by rewrite app_nil_r.
  - rewrite IH. destruct (decide (localPort n = port)) as [<-|Hne].
    + rewrite lookup_insert_eq, filter_cons_True by done.
      cbn [from_option]. unfold Datatypes.id. by rewrite <- (assoc_L (++)).
    + by rewrite lookup_insert_ne, filter_cons_False by done.
Qed.

(** X17: the hosts column.  With [details] the text for a port is the
    system names of the neighbours whose [localPort] is that port, each
    after a space, in the order of the neighbour list (an unset name
    prints as "None"); without [details], or with no such neighbour, it
    is empty. *)
Theorem lldp_string_of_neighbors (ns : list LinkNeighbor) (port : Z)
    (details : bool) :
  _get_lldp_string port (collect_neighbors ns) details
  = if details then
      foldl (λ ret n, ret +:+ " " +:+ str_of_option (systemName n)) ""
        (filter (λ n, localPort n = port) ns)
    else "".
Proof.
  pose proof (collect_neighbors_lookup ns ∅ port) as Hlookup.
  rewrite lookup_empty in Hlookup. fold (collect_neighbors ns) in Hlookup.
  unfold _get_lldp_string.
  destruct (collect_neighbors ns !! port) as [l|];
    cbn in Hlookup; rewrite <- Hlookup; by destruct details.
Qed.

Example hosts_of_port_2 :
  _get_lldp_string 2 (collect_neighbors StatsMock.neighbors) true
  = " rsw1 None".
Proof. reflexivity. Qed.

Section stats_facts.
Context {S : Type} (client : CtrlClient S).
Implicit Types (w : world S).

Lemma ask_run {A} (h : S → (exn + A) * S) w :
  ask h w = ((h (services w)).1, World (h (services w)).2 (log w)).
Proof. unfold ask. by destruct (h (services w)). Qed.

Lemma fetch_port_stats_log (ports : list Z) (stats : list (Z * PortStats)) w :
  log (fetch_port_stats client ports stats w).2 = log w.
Proof.
  revert stats w. induction ports as [|port ports IH]; intros stats w;
    cbn [fetch_port_stats]; [done|].
  rewrite bind_run, ask_run.
  destruct (getPortStats client port (services w)) as [[e|st] s1];
    cbn [fst snd]; [done|].
  by rewrite IH.
Qed.

Lemma print_rows_run {A} (row : A → string) (l : list A) w :
  for_each l (λ x, print (row x)) w
  = (inr tt, World (services w) (log w ++ (Print ∘ row <$> l))).
Proof.
  revert w. induction l as [|x l IH]; intros w; cbn [for_each fmap list_fmap].
  - rewrite app_nil_r. by destruct w.
  - rewrite bind_run. cbn [print emit]. rewrite IH. cbn [services log compose].
    by rewrite <- (assoc_L (++)).
Qed.

(** X18: no partial table: when the stats command raises, it has printed
    nothing; all remote calls are made before the first line. *)
Theorem show_stats_failure_prints_nothing (details : bool) (ports : list Z)
    w (e : exn) :
  (show_stats client details ports w).1 = inl e →
  trace_of (show_stats client details ports) w = [].
Proof.
  unfold show_stats. intros Hfail. apply trace_of_appended.
  rewrite app_nil_r. revert Hfail. rewrite bind_run.
  set (fetch := match ports with [] => _ | _ => _ end).
  assert (log (fetch w).2 = log w) as Hfetch.
  { subst fetch. destruct ports; [|apply fetch_port_stats_log].
    by rewrite ask_run. }
  destruct (fetch w) as [[e1|stats] w1]; cbn [snd] in Hfetch; [done|].
  rewrite bind_run, ask_run.
  destruct (getLldpNeighbors client (services w1)) as [[e2|ns] s2];
    cbn [fst snd log]; [done|].
  rewrite bind_run. cbn [print emit]. by rewrite print_rows_run.
Qed.

Lemma odict_set_listed (stat_of : Z → PortStats) (ks : list Z) (port : Z) :
  odict.set port (stat_of port) ((λ p, (p, stat_of p)) <$> ks)
  = (λ p, (p, stat_of p)) <$> (if decide (port ∈ ks) then ks else ks ++ [port]).
Proof.
  induction ks as [|k ks IH]; cbn [fmap list_fmap odict.set].
  - rewrite decide_False by apply not_elem_of_nil. done.
  - destruct (decide (k = port)) as [->|Hne].
    + rewrite decide_True by (rewrite elem_of_cons; by left). done.
    + rewrite IH. destruct (decide (port ∈ ks)) as [Hin|Hnin].
      * rewrite decide_True by (rewrite elem_of_cons; by right). done.
      * rewrite decide_False; [done|]. rewrite elem_of_cons.
        by intros [->|?].
Qed.

Lemma fetch_port_stats_ok (stat_of : Z → PortStats) (ports ks : list Z) w :
  (∀ port s, port ∈ ports →
             ∃ s', getPortStats client port s = (inr (stat_of port), s')) →
  ∃ s', fetch_port_stats client ports ((λ p, (p, stat_of p)) <$> ks) w
        = (inr ((λ p, (p, stat_of p)) <$> (ks ++ unseen ks ports)),
           World s' (log w)).
Proof.
  revert ks w. induction ports as [|port ports IH]; intros ks w Hfetch;
    cbn [fetch_port_stats unseen].
  - exists (services w). rewrite app_nil_r. by destruct w.
  - rewrite bind_run, ask_run.
    destruct (Hfetch port (services w)) as [s1 ->]; [rewrite elem_of_cons; by left|].
    cbn [fst snd]. rewrite odict_set_listed.
    assert (∀ p s, p ∈ ports →
              ∃ s', getPortStats client p s = (inr (stat_of p), s')) as Hrest.
    { intros p s Hp. apply Hfetch. rewrite elem_of_cons. by right. }
    destruct (decide (port ∈ ks)).
    + destruct (IH ks (World s1 (log w)) Hrest) as [s' ->]. by exists s'.
    + destruct (IH (ks ++ [port]) (World s1 (log w)) Hrest) as [s' ->].
      exists s'. by rewrite <- (assoc_L (++)).
Qed.

(** X19: the stats table for ports named on the command line: when the
    service answers every request, the output is the header followed by
    one row per port named, in the order of first mention; a port named
    more than once gets a single row. *)
Theorem show_stats_rows (details : bool) (ports : list Z) w
    (stat_of : Z → PortStats) (ns : list LinkNeighbor) :
  ports ≠ [] →
  (∀ port s, port ∈ ports →
             ∃ s', getPortStats client port s = (inr (stat_of port), s')) →
  (∀ s, ∃ s', getLldpNeighbors client s = (inr ns, s')) →
  (show_stats client details ports w).1 = inr tt ∧
  trace_of (show_stats client details ports) w
  = Print (stats_header details)
    :: ((λ port, Print (stats_row (collect_neighbors ns) details
                          (port, stat_of port)))
        <$> unseen [] ports).
Proof.
  intros Hne Hfetch Hlldp.
  assert (∃ s', show_stats client details ports w
                = (inr tt,
                   World s' (log w ++ Print (stats_header details)
                     :: ((λ port, Print (stats_row (collect_neighbors ns) details
                                           (port, stat_of port)))
                         <$> unseen [] ports)))) as [s' Hrun].
  { unfold show_stats. rewrite bind_run.
    destruct ports as [|p ports]; [done|].
    destruct (fetch_port_stats_ok stat_of (p :: ports) [] w Hfetch) as [s1 Hf].
    change ((λ p, (p, stat_of p)) <$> []) with (@nil (Z * PortStats)) in Hf.
    rewrite Hf. rewrite bind_run, ask_run. cbn [services].
    destruct (Hlldp s1) as [s2 ->]. cbn [fst snd log].
    rewrite bind_run. cbn [print emit]. rewrite print_rows_run.
    cbn [services log app]. exists s2. f_equal. f_equal.
    rewrite <- (assoc_L (++)). f_equal. cbn [app]. f_equal.
    by rewrite <- list_fmap_compose. }
  rewrite Hrun. split; [done|]. apply trace_of_appended. by rewrite Hrun.
Qed.
End stats_facts.

Lemma show_stats_failure_prints_nothing_witness :
  trace_of (show_stats StatsMock.ctrl true [1; 0; 2]) (World tt []) = [].
Proof.
  apply (show_stats_failure_prints_nothing StatsMock.ctrl true [1; 0; 2]
           (World tt []) FbossBaseError).
  reflexivity.
Defined.

Lemma show_stats_rows_witness :
  (show_stats StatsMock.ctrl true [2; 1; 2] (World tt [])).1 = inr tt ∧
  trace_of (show_stats StatsMock.ctrl true [2; 1; 2]) (World tt [])
  = Print (stats_header true)
    :: ((λ port, Print (stats_row (collect_neighbors StatsMock.neighbors) true
                          (port, StatsMock.stats port)))
        <$> unseen [] [2; 1; 2]).
Proof.
  apply (show_stats_rows StatsMock.ctrl true [2; 1; 2] (World tt [])
           StatsMock.stats StatsMock.neighbors).
  - discriminate.
  - intros port s Hport. exists s.
    rewrite !elem_of_cons, elem_of_nil in Hport.
    destruct Hport as [->|[->|[->|[]]]]; reflexivity.
  - intros s. exists s. reflexivity.
Defined.

Example stats_table :
  trace_of (show_stats StatsMock.ctrl true [2; 1; 2]) (World tt [])
  = [Print "Port Name   +Id In           bytes           uPkts     mcPkts     bcPkts       errs       disc Out           bytes           uPkts     mcPkts     bcPkts       errs       disc Hosts";
     Print "eth1/2/1      2 In            2000              20          2          0          0          2 Out            3000              30          3          0          0          3  rsw1 None";
     Print "eth1/1/1      1 In            1000              10          1          0          0          1 Out            2000              20          2          0          0          2  fsw7"].
Proof. vm_compute. reflexivity. Qed.

(** ** Optical power below one milliwatt *)

Lemma ln_10_pos : (0 < ln 10)%R.
Proof. rewrite <- ln_1. apply ln_increasing; lra. Qed.

(** X20: what [_mw_to_dbm] shows for weak signals.  1 mW gives 0, and
    the guarded input 0 gives 0 as well, so a dead channel reads like a
    1 mW signal; a power between 0 and 1 mW gives a negative value; a
    negative input raises [ValueError]. *)
Theorem mw_to_dbm_weak_signals :
  _mw_to_dbm 1 = inr 0%R ∧
  _mw_to_dbm 0 = inr 0%R ∧
  (∀ mw, (0 < mw < 1)%R → ∃ d, _mw_to_dbm mw = inr d ∧ (d < 0)%R) ∧
  (∀ mw, (mw < 0)%R → _mw_to_dbm mw = inl ValueError).
Proof.
  assert (∀ mw, (0 < mw)%R → _mw_to_dbm mw = inr (10 * (ln mw / ln 10))%R)
    as Hpos.
  { intros mw Hmw. unfold _mw_to_dbm, math_log10.
    destruct (Req_dec_T mw 0) as [->|_]; [lra|].
    destruct (Rlt_dec 0 mw); [done|lra]. }
  split_and!.
  - rewrite Hpos by lra. rewrite ln_1. f_equal. lra.
  - unfold _mw_to_dbm. by destruct (Req_dec_T 0 0).
  - intros mw Hmw. eexists. split; [apply Hpos; lra|].
    assert (ln mw / ln 10 < 0)%R; [|lra].
    assert (ln mw < 0)%R as Hneg.
    { rewrite <- ln_1. apply ln_increasing; lra. }
    pose proof (Rinv_0_lt_compat _ ln_10_pos). unfold Rdiv. nra.
  - apply mw_to_dbm_negative.
Qed.

Lemma mw_to_dbm_weak_signals_witness :
  ∃ d, _mw_to_dbm (1 / 2) = inr d ∧ (d < 0)%R.
Proof.
  apply (proj1 (proj2 (proj2 mw_to_dbm_weak_signals)) (1 / 2)%R). lra.
Defined.

(** ** The command object of the detailed report *)

Lemma port_speeds_lookup (all_info : list (Z * PortInfo))
    (d : gmap Z (option Z)) (port : Z) :
  NoDup (odict.keys all_info) →
  foldl (λ (d : gmap Z (option Z)) (kv : Z * PortInfo),
           <[kv.1 := speedMbps kv.2]> d) d all_info !! port
  = match odict.get port all_info with
    | Some info => Some (speedMbps info)
    | None => d !! port
    end.
Proof.
  unfold odict.keys. revert d.
  induction all_info as [|[k info] l IH]; intros d; cbn [foldl odict.get];
    [done|].
  rewrite fmap_cons, NoDup_cons. intros [Hk Hnd]. rewrite IH by done.
  cbn [fst snd]. destruct (decide (k = port)) as [->|Hne].
  - destruct (odict.get port l) as [info'|] eqn:Hget.
    + exfalso. apply Hk. clear -Hget.
      induction l as [|[k' v'] l IHl]; cbn [odict.get] in Hget; [done|].
      rewrite fmap_cons, elem_of_cons. cbn [fst].
      destruct (decide (k' = port)); [by left|]. right. by apply IHl.
    + by rewrite lookup_insert_eq.
  - destruct (odict.get port l); [done|]. by rewrite lookup_insert_ne.
Qed.

(** X21: [PortStatusDetailCmd.__init__] makes two requests, all port
    infos and then the status of the ports asked for, and keeps the
    status answer as it is and the speed of every port of the info
    answer under the port's number; the maps and lists it fills later
    start empty.  When the first request raises, the second is not
    made. *)
Theorem detail_cmd_init {T : TelemetryModel} {S : Type}
    (client : AgentClient S) (ports : list Z) (verbose : bool) (w : world S) :
  (∀ all_info s1 resp s2,
     getAllPortInfo client (services w) = (inr all_info, s1) →
     getPortStatus client ports s1 = (inr resp, s2) →
     NoDup (odict.keys all_info) →
     ∃ cmd : DetailCmd T,
       PortStatusDetailCmd_init client ports verbose w
       = (inr cmd, World s2 (log w ++ [Rpc GetAllPortInfo;
                                       Rpc (GetPortStatus ports)])) ∧
       _status_resp cmd = resp ∧ _transceiver cmd = [] ∧
       _t_to_p cmd = ∅ ∧ _info_resp cmd = ∅ ∧ _verbose cmd = verbose ∧
       ∀ port, _port_speeds cmd !! port
               = speedMbps <$> odict.get port all_info) ∧
  (∀ e, (getAllPortInfo client (services w)).1 = inl e →
        (PortStatusDetailCmd_init (T := T) client ports verbose w).1 = inl e ∧
        trace_of (PortStatusDetailCmd_init (T := T) client ports verbose) w
        = [Rpc GetAllPortInfo]).
Proof.
  split.
  - intros all_info s1 resp s2 Hinfo Hstatus Hnd. eexists. split.
    + unfold PortStatusDetailCmd_init, _get_port_speeds.
      rewrite !bind_run, rpc_run, Hinfo. cbn [fst snd mret M_ret].
      rewrite bind_run, rpc_run. cbn [services log]. rewrite Hstatus.
      cbn [fst snd]. by rewrite <- (assoc_L (++)).
    + cbn [_status_resp _transceiver _t_to_p _info_resp _verbose _port_speeds].
      split_and!; try done.
      intros port. rewrite port_speeds_lookup, lookup_empty by done.
      by destruct (odict.get port all_info).
  - intros e Hraise.
    assert (∃ s', PortStatusDetailCmd_init (T := T) client ports verbose w
                  = (inl e, World s' (log w ++ [Rpc GetAllPortInfo])))
      as [s' Hrun].
    { unfold PortStatusDetailCmd_init, _get_port_speeds.
      rewrite !bind_run, rpc_run, Hraise. by eexists. }
    rewrite Hrun. split; [done|]. apply trace_of_appended. by rewrite Hrun.
Qed.

Lemma detail_cmd_init_witness :
  ∃ cmd : DetailCmd Mock.NoTelemetry,
    PortStatusDetailCmd_init Mock.agent [2; 3] false (Mock.start Mock.three_ports)
    = (inr cmd, World Mock.three_ports
                  ([] ++ [Rpc GetAllPortInfo; Rpc (GetPortStatus [2; 3])])) ∧
    _status_resp cmd
    = [(2, Mock.status true None); (3, Mock.status false None)] ∧
    _transceiver cmd = [] ∧ _t_to_p cmd = ∅ ∧ _info_resp cmd = ∅ ∧
    _verbose cmd = false ∧
    ∀ port, _port_speeds cmd !! port
            = speedMbps <$> odict.get port (Mock.infos Mock.three_ports).
Proof.
  apply (proj1 (detail_cmd_init (T := Mock.NoTelemetry) Mock.agent [2; 3] false
                  (Mock.start Mock.three_ports))
           (Mock.infos Mock.three_ports) Mock.three_ports
           [(2, Mock.status true None); (3, Mock.status false None)]
           Mock.three_ports).
  - reflexivity.
  - reflexivity.
  - apply (bool_decide_unpack _). reflexivity.
Defined.
